(** * SBE1 inventory tracker: extraction, ledger reconciliation and run

    Shallow embedding of [index.js].  JavaScript objects that are used as
    dictionaries from item names to quantities ([currentInventory],
    [prevInventory], [investmentRecord], the results of [processContainer])
    are finite maps [gmap string Z].  Quantities are integers: the script
    only adds, subtracts and compares them, which is exact on JavaScript
    numbers holding integers below 2^53.  [Object.entries o] is
    [map_to_list o]: every key of the object occurs exactly once in it, which
    is what the loops rely on.  The code walks the entries in the object's
    own order (insertion order, integer-like names first); [map_to_list]
    gives the same entries in another order.  The ledger and [hasChanges] do
    not depend on that order; the change set and the update message do, in
    the order of their lines only, and the statements of this file are about
    their members, their lengths and their first line, never about the order
    of the lines.

    A read [o[k]] of a name that is not an own key of a plain object falls
    through to [Object.prototype]; see [Js.inherited]. *)

From stdpp Require Import base gmap list strings fin_maps.
From Stdlib Require Import ZArith Lia DecimalString.

Open Scope Z_scope.

(** ** JavaScript truthiness on optional numbers *)

Module Js.

(** [x || 0] for a property that is either missing ([undefined]) or a number. *)
Definition or_zero (x : option Z) : Z :=
  match x with
  | Some n => n
  | None => 0
  end.

(** [!x] for a property that is either missing ([undefined]) or a number:
    [undefined] and [0] are falsy. *)
Definition not (x : option Z) : bool :=
  match x with
  | Some n => n =? 0
  | None => true
  end.

(** [x || 1], see [item.Count || 1]. *)
Definition or_one (x : option Z) : Z :=
  match x with
  | Some n => if n =? 0 then 1 else n
  | None => 1
  end.

(** The property names of [Object.prototype].  The snapshots and the ledger
    are plain objects: [o[k]] for a name [k] that is not an own key of [o]
    is [undefined], except for these names, for which it is the inherited
    function (for [__proto__], the prototype itself), a truthy value that
    is not a number. *)
Definition inherited (k : string) : bool :=
  bool_decide (k ∈ ["constructor"; "__defineGetter__"; "__defineSetter__";
                    "hasOwnProperty"; "__lookupGetter__"; "__lookupSetter__";
                    "isPrototypeOf"; "propertyIsEnumerable"; "toString";
                    "valueOf"; "__proto__"; "toLocaleString"]).

(** [!o[k]] on a plain object whose own values are numbers: an own value is
    falsy when it is 0, a missing name is falsy unless it is inherited. *)
Definition falsy_at (o : gmap string Z) (k : string) : bool :=
  match o !! k with
  | Some n => n =? 0
  | None => negb (inherited k)
  end.

(** [k in o] on a plain object. *)
Definition has (o : gmap string Z) (k : string) : bool :=
  bool_decide (is_Some (o !! k)) || inherited k.

(** [{ ...target, ...source }]: the own properties of [source] are copied
    one by one over those already set. *)
Definition spread (target source : gmap string Z) : gmap string Z :=
  foldl (λ o entry, <[entry.1 := entry.2]> o) target (map_to_list source).

End Js.

(** ** The reconciliation engine, lines 145-173 of [checkInventoryChanges] *)

Module Ledger.

(** Loop state: [newInvestmentRecord] and [hasChanges]. *)
Record state := State {
  newInvestmentRecord : gmap string Z;
  hasChanges : bool
}.

(** Body of the first loop ("Procesar cambios"), for one entry
    [[itemName, currentCount]] of [currentInventory].  In the depletion branch
    the source executes [newInvestmentRecord[itemName] -= sold] only when
    [sold > 0]; then [invested > 0], hence the stored entry exists and is
    [invested] itself (lemma [sold_reads_entry]).

    The two reads [prevInventory[itemName]] and
    [newInvestmentRecord[itemName]] are those of a name that is an own key
    or is not inherited ([Js.inherited]): a missing name then reads
    [undefined] and [|| 0] gives 0.  For an inherited name missing from the
    object read, the code computes with the inherited function: the
    difference is NaN and the step does nothing, or [+] builds a string.
    The integer ledger has no value for that; the statements on this loop
    that depend on such a read carry the hypothesis that the name is not
    inherited. *)
Definition change_step (prevInventory : gmap string Z)
    (st : state) (entry : string * Z) : state :=
  let '(itemName, currentCount) := entry in
  let prevCount := Js.or_zero (prevInventory !! itemName) in
  let diff := currentCount - prevCount in
  if 0 <? diff then
    State (<[itemName := Js.or_zero (newInvestmentRecord st !! itemName) + diff]>
             (newInvestmentRecord st)) true
  else if diff <? 0 then
    let invested := Js.or_zero (newInvestmentRecord st !! itemName) in
    let sold := Z.min (Z.abs diff) invested in
    if 0 <? sold then
      State (<[itemName := invested - sold]> (newInvestmentRecord st)) true
    else st
  else st.

Definition process_changes (currentInventory prevInventory : gmap string Z)
    (st : state) : state :=
  foldl (change_step prevInventory) st (map_to_list currentInventory).

(** Body of the second loop ("Procesar items eliminados"), for one entry
    [[itemName, invested]] of the entries of [newInvestmentRecord] taken when
    the loop starts.  [!currentInventory[itemName]] is a read on a plain
    object: for an inherited name that the snapshot does not hold it finds
    the inherited function, and the entry is kept. *)
Definition removed_step (currentInventory : gmap string Z)
    (st : state) (entry : string * Z) : state :=
  let '(itemName, invested) := entry in
  if Js.falsy_at currentInventory itemName && (0 <? invested) then
    State (delete itemName (newInvestmentRecord st)) true
  else st.

Definition process_removed (currentInventory : gmap string Z)
    (st : state) : state :=
  foldl (removed_step currentInventory) st
        (map_to_list (newInvestmentRecord st)).

(** Lines 145-173: [hasChanges = false], the copy
    [{ ...investmentRecord }], then the two loops. *)
Definition reconcile (currentInventory prevInventory investmentRecord :
    gmap string Z) : state :=
  process_removed currentInventory
    (process_changes currentInventory prevInventory
       (State (Js.spread ∅ investmentRecord) false)).

(** The filter of line 178: [prevInventory[name] !== currentInventory[name]],
    a strict comparison in which a missing property is [undefined]. *)
Definition differs (currentInventory prevInventory : gmap string Z)
    (entry : string * Z) : bool :=
  bool_decide (prevInventory !! entry.1 ≠ currentInventory !! entry.1).

(** The change set of lines 177-181 before it is rendered: name, previous
    quantity (or 0) and current quantity.  The entries are those of the code,
    in the order of [map_to_list] instead of the object's own order.  The
    previous quantity [prevInventory[name] || 0] is the one read for a name
    that is an own key of [prevInventory] or is not inherited
    ([Js.inherited]); for an inherited name missing from it the code renders
    the inherited function instead of 0. *)
Definition changes (currentInventory prevInventory : gmap string Z)
    : list (string * Z * Z) :=
  (λ entry, (entry.1, Js.or_zero (prevInventory !! entry.1), entry.2))
    <$> filter (λ entry, differs currentInventory prevInventory entry = true)
               (map_to_list currentInventory).

(** Per-item reading of the two loop bodies, used to state what a whole loop
    does to one item: the entry left by [change_step] for an item whose
    stored entry was [old], and whether that step sets [hasChanges]. *)
Definition entry_after (prevCount : Z) (old : option Z) (currentCount : Z)
    : option Z :=
  let diff := currentCount - prevCount in
  if 0 <? diff then Some (Js.or_zero old + diff)
  else if diff <? 0 then
    let invested := Js.or_zero old in
    let sold := Z.min (Z.abs diff) invested in
    if 0 <? sold then Some (invested - sold) else old
  else old.

Definition touches (prevCount : Z) (old : option Z) (currentCount : Z) : bool :=
  let diff := currentCount - prevCount in
  if 0 <? diff then true
  else if diff <? 0 then 0 <? Z.min (Z.abs diff) (Js.or_zero old)
  else false.

(** The test of line 169. *)
Definition stale (currentInventory : gmap string Z) (entry : string * Z) : bool :=
  Js.falsy_at currentInventory entry.1 && (0 <? entry.2).

End Ledger.


(** ** Snapshot extraction, lines 93-122 of [getPlayerInventory] *)

Module Extract.

(** A slot object [{id, display_name?, Count?}] of the profile API; a missing
    property is [None]. *)
Record slot := Slot {
  id : option Z;
  display_name : option string;
  Count : option Z
}.

(** [Object.values(container)]: the slots in order; a [null] slot is [None]. *)
Definition container := list (option slot).

(** [!item?.id] *)
Definition no_id (item : option slot) : bool :=
  match item with
  | Some s => Js.not (id s)
  | None => true
  end.

(** [item.display_name || "Sin nombre"]: a missing or empty name is falsy. *)
Definition key_of (s : slot) : string :=
  match display_name s with
  | Some n => if bool_decide (n = "") then "Sin nombre" else n
  | None => "Sin nombre"
  end.

(** [item.Count || 1] *)
Definition count_of (s : slot) : Z := Js.or_one (Count s).

(** Loop body shared by [processContainer] and [processStorage]:
    [itemsMap.set(key, (itemsMap.get(key) || 0) + count)]. *)
Definition add_item (itemsMap : gmap string Z) (item : option slot)
    : gmap string Z :=
  match item with
  | Some s =>
      if Js.not (id s) then itemsMap
      else <[key_of s := Js.or_zero (itemsMap !! key_of s) + count_of s]> itemsMap
  | None => itemsMap
  end.

(** [processContainer]; [Object.fromEntries] of the [Map] is the map itself. *)
Definition processContainer (c : container) : gmap string Z :=
  foldl add_item ∅ c.

(** What one slot adds to the quantity recorded under the name [k]: nothing
    when it is skipped or carries another name. *)
Definition counted (k : string) (item : option slot) : option Z :=
  match item with
  | Some s =>
      if Js.not (id s) then None
      else if bool_decide (key_of s = k) then Some (count_of s) else None
  | None => None
  end.

Definition counts_for (k : string) (c : container) : list Z :=
  omap (counted k) c.

(** A storage unit; [containsItems] may be missing. *)
Record unit := Unit { containsItems : option container }.

Definition add_unit (itemsMap : gmap string Z) (u : option unit)
    : gmap string Z :=
  match u with
  | Some (Unit (Some items)) => foldl add_item itemsMap items
  | _ => itemsMap
  end.

Definition processStorage (storage : list (option unit)) : gmap string Z :=
  foldl add_unit ∅ storage.

(** The value returned by [getPlayerInventory]. *)
Record inventoryData := InventoryData {
  inventory : gmap string Z;
  enderchest : gmap string Z;
  storage : gmap string Z
}.

(** Lines 134-138: [{...inventory, ...enderchest, ...storage}]. *)
Definition currentInventory (d : inventoryData) : gmap string Z :=
  Js.spread (Js.spread (Js.spread ∅ (inventory d)) (enderchest d)) (storage d).

End Extract.
(** ** Text: JavaScript strings as sequences of UTF-16 code units

    Lengths and slices of JavaScript strings count UTF-16 code units, so a
    message is a list of code units.  Item names and the player label are
    [string]s of one-unit characters. *)

Module Text.

Definition t := list N.

Definition of_string (s : string) : t :=
  (λ a, Ascii.N_of_ascii a) <$> String.list_ascii_of_string s.

(** Template substitution [${n}] of an integer: its decimal digits, with a
    leading [-] when negative. *)
Definition of_Z (n : Z) : t := of_string (NilZero.string_of_int (Z.to_int n)).

(** [lines.join(sep)] *)
Fixpoint join (sep : t) (lines : list t) : t :=
  match lines with
  | [] => []
  | [line] => line
  | line :: rest => line ++ sep ++ join sep rest
  end.

Definition newline : t := [10%N].

End Text.

(** ** The notification text, lines 176-185 *)

Module Message.

(** ["📊 Actualización de " + PLAYER_NAME + ":\n"]; U+1F4CA is the surrogate
    pair D83D DCCA, [ó] is U+00F3. *)
Definition header (PLAYER_NAME : string) : Text.t :=
  [0xD83D; 0xDCCA]%N ++ Text.of_string " Actualizaci" ++ [0xF3]%N
  ++ Text.of_string "n de " ++ Text.of_string PLAYER_NAME
  ++ Text.of_string ":" ++ Text.newline.

(** [`${name}: ${prevInventory[name] || 0} → ${count}`]; the arrow is
    U+2192. *)
Definition line (change : string * Z * Z) : Text.t :=
  let '(name, prevCount, count) := change in
  Text.of_string name ++ Text.of_string ": " ++ Text.of_Z prevCount
  ++ Text.of_string " " ++ [0x2192]%N ++ Text.of_string " " ++ Text.of_Z count.

(** ["\n🔔 Cambios:\n"]; U+1F514 is the surrogate pair D83D DD14. *)
Definition changes_title : Text.t :=
  Text.newline ++ [0xD83D; 0xDD14]%N ++ Text.of_string " Cambios:"
  ++ Text.newline.

(** The lines come in the order of [Ledger.changes]. *)
Definition update (PLAYER_NAME : string)
    (currentInventory prevInventory : gmap string Z) : Text.t :=
  let message := header PLAYER_NAME in
  let changes := line <$> Ledger.changes currentInventory prevInventory in
  if bool_decide (0 < length changes)%nat then
    message ++ changes_title ++ Text.join Text.newline changes
  else message.

(** ["🚨 Error crítico: " + error.message]; U+1F6A8 is D83D DEA8, [í] is
    U+00ED. *)
Definition critical (error_message : Text.t) : Text.t :=
  [0xD83D; 0xDEA8]%N ++ Text.of_string " Error cr" ++ [0xED]%N
  ++ Text.of_string "tico: " ++ error_message.

End Message.
(** ** The profile document, as far as [getPlayerInventory] reads it *)

Module Api.

(** [currentProfile.data.items]; a missing container is [None]. *)
Record items := Items {
  inventory : option Extract.container;
  enderchest : option Extract.container;
  storage : option (list (option Extract.unit))
}.

(** [profile.data], with its optional [items] section. *)
Record profile_data := ProfileData { items_section : option items }.

(** One value of [data.profiles]: whether [profile.current === true], and
    the optional [data]. *)
Record profile := Profile {
  current : bool;
  data : option profile_data
}.

(** The parsed body: [profiles] is [None] when [data.profiles] is missing or
    not an object, else [Object.values(data.profiles)], a [null] value being
    [None]. *)
Record body := Body { profiles : option (list (option profile)) }.

End Api.

(** ** The run: external calls, exceptions and the exit status

    The outside world is an oracle [env]: what the n-th call of [fetch] in
    the run answers, what the document store answers.  A computation takes
    the number of [fetch] calls made so far and the log of what was sent out,
    and either returns or throws. *)

Module Run.

Record error := Error { message : Text.t }.

(** A [fetch] response: [response.ok], [response.status] and the outcome of
    [response.json()], [None] when it rejects.  For the Telegram endpoint
    only whether parsing succeeds matters. *)
Record response := Response {
  ok : bool;
  status : Z;
  json : option Api.body
}.

Inductive fetched :=
  | Rejected (e : error)
  | Responded (r : response).

Inductive request :=
  | ProfileGet (player : string)
  | TelegramPost (chat_id : string) (text : Text.t) (parse_mode : string).

Inductive event :=
  | Requested (r : request)
  | Stored (documentName : string) (data : gmap string Z).

(** The three settings are the values of [process.env.PLAYER_NAME],
    [process.env.BOT_TOKEN] and [process.env.CHAT_ID]; a variable that is not
    set is the empty string here: the guard of line 30 treats [undefined]
    and the empty string alike, and nothing else reads them in that case. *)
Record env := Env {
  PLAYER_NAME : string;
  TELEGRAM_BOT_TOKEN : string;
  TELEGRAM_CHAT_ID : string;
  fetch : nat → fetched;
  getDoc : string → error + option (gmap string Z);
  setDoc : string → gmap string Z → option error
}.

Record world := World {
  fetches : nat;
  log : list event
}.

Inductive result (A : Type) :=
  | Return (a : A)
  | Throw (e : error).
Arguments Return {A} a.
Arguments Throw {A} e.

Definition M (A : Type) : Type := world → result A * world.

Definition ret {A} (a : A) : M A := λ w, (Return a, w).

Definition throw {A} (e : error) : M A := λ w, (Throw e, w).

Definition bind {A B} (m : M A) (f : A → M B) : M B := λ w,
  match m w with
  | (Return a, w') => f a w'
  | (Throw e, w') => (Throw e, w')
  end.

(** [try { m } catch (error) { handler }] *)
Definition try_catch {A} (m : M A) (handler : error → M A) : M A := λ w,
  match m w with
  | (Return a, w') => (Return a, w')
  | (Throw e, w') => handler e w'
  end.

(** [Promise.all([a, b])]: both calls are started; it rejects when one of
    them does. *)
Definition promise_all {A B} (a : M A) (b : M B) : M (A * B) := λ w,
  let '(ra, w1) := a w in
  let '(rb, w2) := b w1 in
  match ra, rb with
  | Return x, Return y => (Return (x, y), w2)
  | Throw e, _ => (Throw e, w2)
  | _, Throw e => (Throw e, w2)
  end.

Notation "'let*' x ':=' m 'in' k" := (bind m (λ x, k))
  (at level 10, x name, m at level 100, k at level 200, only parsing).

Definition MAX_RETRIES : nat := 3.

(** Errors raised by the engine itself; their text is never sent out. *)
Definition type_error : error := Error (Text.of_string "TypeError").

Definition syntax_error : error := Error (Text.of_string "SyntaxError").

(** One call of [fetch(url, options)]. *)
Definition do_fetch (E : env) (req : request) : M response := λ w,
  let w' := World (S (fetches w)) (log w ++ [Requested req]) in
  match fetch E (fetches w) with
  | Rejected e => (Throw e, w')
  | Responded r => (Return r, w')
  end.

(** The loop of [fetchWithRetry], from iteration [i] with [left] iterations
    to go; when the loop runs out the function returns [undefined]. *)
Fixpoint fetchWithRetry_from (E : env) (req : request) (retries i left : nat)
    : M (option response) :=
  match left with
  | O => ret None
  | S left' =>
      try_catch
        (let* response := do_fetch E req in
         if ok response then ret (Some response)
         else throw (Error (Text.of_string "HTTP error: "
                            ++ Text.of_Z (status response))))
        (λ error,
           if bool_decide (i = (retries - 1)%nat) then throw error
           else fetchWithRetry_from E req retries (S i) left')
  end.

Definition fetchWithRetry (E : env) (req : request) : M (option response) :=
  fetchWithRetry_from E req MAX_RETRIES 0 MAX_RETRIES.

(** [await response.json()]; on [undefined] the property access throws. *)
Definition response_json (response : option response) : M Api.body :=
  match response with
  | Some r =>
      match json r with
      | Some b => ret b
      | None => throw syntax_error
      end
  | None => throw type_error
  end.

(** [Object.values(data.profiles).find(profile => profile.current === true)];
    reading [current] of a [null] value throws. *)
Fixpoint find_current (ps : list (option Api.profile)) : M (option Api.profile) :=
  match ps with
  | [] => ret None
  | None :: _ => throw type_error
  | Some p :: rest => if Api.current p then ret (Some p) else find_current rest
  end.

(** [currentProfile?.data?.items] *)
Definition items_of (currentProfile : option Api.profile) : option Api.items :=
  match currentProfile with
  | Some p =>
      match Api.data p with
      | Some d => Api.items_section d
      | None => None
      end
  | None => None
  end.

(** [Object.values] of a missing container throws. *)
Definition values {A} (x : option A) : M A :=
  match x with
  | Some a => ret a
  | None => throw type_error
  end.

(** [getPlayerInventory], lines 75-127: every failure is caught and turned
    into [null]. *)
Definition getPlayerInventory (E : env) : M (option Extract.inventoryData) :=
  try_catch
    (let* response := fetchWithRetry E (ProfileGet (PLAYER_NAME E)) in
     let* data := response_json response in
     match Api.profiles data with
     | None =>
         throw (Error (Text.of_string "Respuesta inv" ++ [0xE1]%N
                       ++ Text.of_string "lida de la API"))
     | Some ps =>
         let* currentProfile := find_current ps in
         match items_of currentProfile with
         | None =>
             throw (Error (Text.of_string "Datos del perfil no encontrados"))
         | Some its =>
             let* inventory := values (Api.inventory its) in
             let* enderchest := values (Api.enderchest its) in
             let* storage := values (Api.storage its) in
             ret (Some (Extract.InventoryData
                          (Extract.processContainer inventory)
                          (Extract.processContainer enderchest)
                          (Extract.processStorage storage)))
         end
     end)
    (λ error, ret None).

(** [getFirebaseData]: [snapshot.exists() ? snapshot.data() : {}]. *)
Definition getFirebaseData (E : env) (documentName : string)
    : M (gmap string Z) := λ w,
  match getDoc E documentName with
  | inl e => (Throw e, w)
  | inr (Some d) => (Return d, w)
  | inr None => (Return ∅, w)
  end.

Definition updateFirebaseData (E : env) (documentName : string)
    (data : gmap string Z) : M () := λ w,
  match setDoc E documentName data with
  | Some e => (Throw e, w)
  | None => (Return (), World (fetches w) (log w ++ [Stored documentName data]))
  end.

(** [sendTelegramMessage], lines 204-220: the body carries [text: message];
    a failure is logged and swallowed. *)
Definition sendTelegramMessage (E : env) (message : Text.t) : M () :=
  try_catch
    (let* response := fetchWithRetry E
                  (TelegramPost (TELEGRAM_CHAT_ID E) message "Markdown") in
     let* _ := response_json response in
     ret ())
    (λ error, ret ()).

(** [checkInventoryChanges], lines 129-199. *)
Definition checkInventoryChanges (E : env) : M () :=
  try_catch
    (let* inventoryData := getPlayerInventory E in
     match inventoryData with
     | None => ret ()
     | Some d =>
         let currentInventory := Extract.currentInventory d in
         let* docs := promise_all (getFirebaseData E "prev_inventory")
                            (getFirebaseData E "investment_record") in
         let prevInventory := docs.1 in
         let investmentRecord := docs.2 in
         let st := Ledger.reconcile currentInventory prevInventory
                                    investmentRecord in
         let* _ := (if Ledger.hasChanges st then
                sendTelegramMessage E
                  (Message.update (PLAYER_NAME E) currentInventory prevInventory)
              else ret ()) in
         let* _ := promise_all
               (updateFirebaseData E "prev_inventory" currentInventory)
               (updateFirebaseData E "investment_record"
                  (Ledger.newInvestmentRecord st)) in
         ret ()
     end)
    (λ error, throw error).

(** The main block, lines 225-234; the result is the exit status: [1] from
    [process.exit(1)], [0] when the block ends normally. *)
Definition main (E : env) : M Z :=
  try_catch
    (let* _ := checkInventoryChanges E in
     ret 0)
    (λ error,
       let* _ := sendTelegramMessage E (Message.critical (message error)) in
       ret 1).

Definition start : world := World 0 [].

(** The guard of lines 30-32 lets the script go on:
    [!PLAYER_NAME || !TELEGRAM_BOT_TOKEN || !TELEGRAM_CHAT_ID] is false. *)
Definition configured (E : env) : bool :=
  negb (bool_decide (PLAYER_NAME E = "")
        || bool_decide (TELEGRAM_BOT_TOKEN E = "")
        || bool_decide (TELEGRAM_CHAT_ID E = "")).

(** Exit status of the process.  When the guard of lines 30-32 throws, the
    module stops loading before the main block and before the handlers of
    lines 239-249 are registered, and the process ends with status 1.
    Otherwise the status is that of the main block; a rejection escaping
    [main] would reach the [unhandledRejection] handler, which exits
    with 1. *)
Definition exit_status (E : env) : Z :=
  if configured E then
    match (main E start).1 with
    | Return code => code
    | Throw _ => 1
    end
  else 1.

(** The texts handed to the notification sink during the run. *)
Definition transmitted (events : list event) : list Text.t :=
  omap (λ ev, match ev with
              | Requested (TelegramPost _ text _) => Some text
              | _ => None
              end) events.

(** A document as [getFirebaseData] returns it, [None] when [getDoc]
    throws. *)
Definition read (E : env) (documentName : string) : option (gmap string Z) :=
  match getDoc E documentName with
  | inl _ => None
  | inr (Some d) => Some d
  | inr None => Some ∅
  end.

(** The i-th [fetch] of the run fails inside [fetchWithRetry]: it rejects, or
    answers with [!response.ok]. *)
Definition fetch_fails (E : env) (i : nat) : Prop :=
  match fetch E i with
  | Rejected _ => True
  | Responded r => ok r = false
  end.

(** What [getPlayerInventory] returns at the start of the run. *)
Definition inventory_of (E : env) : option Extract.inventoryData :=
  match (getPlayerInventory E start).1 with
  | Return r => r
  | Throw _ => None
  end.

End Run.
(** ** Concrete outside worlds *)

Module Scenario.

Definition store_empty (documentName : string)
    : Run.error + option (gmap string Z) := inr None.

Definition store_accepts (documentName : string) (data : gmap string Z)
    : option Run.error := None.

(** The profile API is unreachable: every [fetch] rejects. *)
Definition unreachable : Run.env :=
  Run.Env "Steve" "t0ken" "42"
    (λ _, Run.Rejected (Run.Error (Text.of_string "ECONNREFUSED")))
    store_empty store_accepts.

Definition answers (b : Api.body) : Run.env :=
  Run.Env "Steve" "t0ken" "42" (λ _, Run.Responded (Run.Response true 200 (Some b)))
    store_empty store_accepts.

(** The body has no [profiles] object. *)
Definition no_profiles : Run.env := answers (Api.Body None).

(** The current profile has no [data.items] section. *)
Definition no_items : Run.env :=
  answers (Api.Body (Some [Some (Api.Profile true (Some (Api.ProfileData None)))])).

Definition one_slot (name : string) : Api.body :=
  Api.Body (Some [Some (Api.Profile true (Some (Api.ProfileData (Some
    (Api.Items (Some [Some (Extract.Slot (Some 261) (Some name) (Some 1))])
               (Some []) (Some []))))))]).

(** A display name of 4001 characters. *)
Definition long_name : string :=
  String.concat "" (replicate 4001 "a").

(** A first run that finds one item with that name. *)
Definition long_item : Run.env := answers (one_slot long_name).

(** The store refuses the write of the ledger. *)
Definition store_down : Run.env :=
  Run.Env "Steve" "t0ken" "42"
    (λ _, Run.Responded (Run.Response true 200 (Some (one_slot "Bow"))))
    store_empty
    (λ documentName _,
       if bool_decide (documentName = "investment_record")
       then Some (Run.Error (Text.of_string "unavailable")) else None).

End Scenario.

(** ** Vocabulary for the statements on extraction and on the run *)

Module Flat.

(** The slots of one storage unit that [processStorage] visits. *)
Definition unit_items (u : option Extract.unit) : Extract.container :=
  match u with
  | Some (Extract.Unit (Some items)) => items
  | _ => []
  end.

(** All the slots [processStorage] visits, unit after unit. *)
Definition storage_items (storage : list (option Extract.unit))
    : Extract.container :=
  flat_map unit_items storage.

(** No slot carries a negative [Count]. *)
Definition counts_non_negative (c : Extract.container) : Prop :=
  ∀ s n, Some s ∈ c → Extract.Count s = Some n → 0 ≤ n.

End Flat.

Module Retry.

(** The error with which one attempt of [fetchWithRetry] fails, if it does:
    the rejection of [fetch], or ["HTTP error: " + status] when
    [response.ok] is false. *)
Definition failure (f : Run.fetched) : option Run.error :=
  match f with
  | Run.Rejected e => Some e
  | Run.Responded r =>
      if Run.ok r then None
      else Some (Run.Error (Text.of_string "HTTP error: "
                            ++ Text.of_Z (Run.status r)))
  end.

(** The documents written during the run, in order. *)
Definition stored (events : list Run.event) : list (string * gmap string Z) :=
  omap (λ ev, match ev with
              | Run.Stored documentName data => Some (documentName, data)
              | _ => None
              end) events.

End Retry.

Module Cases.

(** The profile API rejects the first call, answers 503 to the second and
    answers the third. *)
Definition flaky : Run.env :=
  Run.Env "Steve" "t0ken" "42"
    (λ n, match n with
          | O => Run.Rejected (Run.Error (Text.of_string "ETIMEDOUT"))
          | S O => Run.Responded (Run.Response false 503 None)
          | _ => Run.Responded
                   (Run.Response true 200 (Some (Scenario.one_slot "Bow")))
          end)
    Scenario.store_empty Scenario.store_accepts.

(** The current profile has an inventory and an ender-chest but no storage
    section. *)
Definition no_storage : Run.env :=
  Scenario.answers
    (Api.Body (Some [Some (Api.Profile true (Some (Api.ProfileData (Some
       (Api.Items (Some [Some (Extract.Slot (Some 261) (Some "Bow") (Some 1))])
                  (Some []) None)))))])).

(** The store holds a ledger and a snapshot, and [Bow] left the inventory. *)
Definition bow_sold : Run.env :=
  Run.Env "Steve" "t0ken" "42"
    (λ _, Run.Responded
            (Run.Response true 200 (Some (Scenario.one_slot "Arrow"))))
    (λ documentName,
       if bool_decide (documentName = "prev_inventory")
       then inr (Some {["Arrow" := 1; "Bow" := 1]})
       else inr (Some {["Bow" := 3]}))
    Scenario.store_accepts.

(** The read of the ledger throws. *)
Definition ledger_unreadable : Run.env :=
  Run.Env "Steve" "t0ken" "42"
    (λ _, Run.Responded
            (Run.Response true 200 (Some (Scenario.one_slot "Bow"))))
    (λ documentName,
       if bool_decide (documentName = "investment_record")
       then inl (Run.Error (Text.of_string "permission-denied"))
       else inr None)
    Scenario.store_accepts.

(** [CHAT_ID] is not set; the profile API and the store would answer. *)
Definition no_chat_id : Run.env :=
  Run.Env "Steve" "t0ken" ""
    (λ _, Run.Responded
            (Run.Response true 200 (Some (Scenario.one_slot "Bow"))))
    Scenario.store_empty Scenario.store_accepts.

End Cases.

(** ** The second loop and the change filter of the alternative script

    The script kept beside the workflow has the same first loop; its second
    loop walks the keys of [newInvestmentRecord] with [for ... in], tests
    [itemName in currentInventory] and reads the value through the live
    object; its change filter compares [prevInventory[name] || 0] with the
    count. *)

Module Membership.

(** [!(itemName in currentInventory) && newInvestmentRecord[itemName] > 0];
    [in] sees the names inherited from [Object.prototype] too, and
    [undefined > 0] is false. *)
Definition removed_step (currentInventory : gmap string Z)
    (st : Ledger.state) (itemName : string) : Ledger.state :=
  if negb (Js.has currentInventory itemName)
     && match Ledger.newInvestmentRecord st !! itemName with
        | Some invested => 0 <? invested
        | None => false
        end
  then Ledger.State (delete itemName (Ledger.newInvestmentRecord st)) true
  else st.

Definition process_removed (currentInventory : gmap string Z)
    (st : Ledger.state) : Ledger.state :=
  foldl (removed_step currentInventory) st
        (map_to_list (Ledger.newInvestmentRecord st)).*1.

Definition reconcile (currentInventory prevInventory investmentRecord :
    gmap string Z) : Ledger.state :=
  process_removed currentInventory
    (Ledger.process_changes currentInventory prevInventory
       (Ledger.State (Js.spread ∅ investmentRecord) false)).

(** [(prevInventory[name] || 0) !== count] *)
Definition differs (prevInventory : gmap string Z) (entry : string * Z) : bool :=
  bool_decide (Js.or_zero (prevInventory !! entry.1) ≠ entry.2).

Definition changes (currentInventory prevInventory : gmap string Z)
    : list (string * Z * Z) :=
  (λ entry, (entry.1, Js.or_zero (prevInventory !! entry.1), entry.2))
    <$> filter (λ entry, differs prevInventory entry = true)
               (map_to_list currentInventory).

End Membership.

(** * Properties *)

(** ** Object spread *)

Section keyed_folds.

Implicit Types (l : list (string * Z)) (m : gmap string Z) (k : string).

Lemma foldl_insert_lookup l m k :
  NoDup l.*1 →
  foldl (λ o entry, <[entry.1 := entry.2]> o) m l !! k
  = match (list_to_map l : gmap string Z) !! k with
    | Some v => Some v
    | None => m !! k
    end.
Proof.
  revert m. induction l as [|[k' v'] l IH]; intros m Hnd; simpl.
  - by rewrite lookup_empty.
  - apply NoDup_cons in Hnd as [Hk' Hnd]. rewrite IH by done.
    destruct (decide (k' = k)) as [->|Hne].
    + rewrite (not_elem_of_list_to_map_1 _ k) by done.
      by rewrite !lookup_insert_eq.
    + by rewrite !lookup_insert_ne.
  Qed.

Lemma spread_lookup m1 m2 k :
  Js.spread m1 m2 !! k
  = match m2 !! k with Some v => Some v | None => m1 !! k end.
Proof.
  unfold Js.spread. rewrite foldl_insert_lookup.
  - by rewrite list_to_map_to_list.
  - apply NoDup_fst_map_to_list.
Qed.

Lemma spread_copy m : Js.spread ∅ m = m.
Proof.
  apply map_eq. intros k. rewrite spread_lookup, lookup_empty.
  by destruct (m !! k).
Qed.

End keyed_folds.

(** ** The two loops of the reconciliation, item by item *)

Section loops.

Import Ledger.

Implicit Types (l : list (string * Z)) (cur prev L : gmap string Z)
  (st : state) (k : string).

#[local] Arguments change_step : simpl never.
#[local] Arguments removed_step : simpl never.

(** In the depletion branch, [sold > 0] means that the entry read by
    [-=] is there and is [invested]. *)
Lemma sold_reads_entry (old : option Z) (d : Z) :
  0 < Z.min (Z.abs d) (Js.or_zero old) → old = Some (Js.or_zero old).
Proof. destruct old; simpl; [done | lia]. Qed.

Lemma change_step_same prev st k c :
  newInvestmentRecord (change_step prev st (k, c)) !! k
  = entry_after (Js.or_zero (prev !! k)) (newInvestmentRecord st !! k) c.
Proof.
  unfold change_step, entry_after.
  repeat case_match; simpl; by rewrite ?lookup_insert_eq.
Qed.

Lemma change_step_other prev st k k' c :
  k' ≠ k →
  newInvestmentRecord (change_step prev st (k', c)) !! k
  = newInvestmentRecord st !! k.
Proof.
  intros Hne. unfold change_step.
  repeat case_match; simpl; by rewrite ?lookup_insert_ne.
Qed.

Lemma change_step_flag prev st k c :
  hasChanges (change_step prev st (k, c))
  = hasChanges st
    || touches (Js.or_zero (prev !! k)) (newInvestmentRecord st !! k) c.
Proof.
  unfold change_step, touches.
  repeat case_match; simpl; by rewrite ?orb_true_r, ?orb_false_r.
Qed.

Lemma changes_loop_lookup prev l st k :
  NoDup l.*1 →
  newInvestmentRecord (foldl (change_step prev) st l) !! k
  = match (list_to_map l : gmap string Z) !! k with
    | Some c => entry_after (Js.or_zero (prev !! k))
                            (newInvestmentRecord st !! k) c
    | None => newInvestmentRecord st !! k
    end.
Proof.
  revert st. induction l as [|[k' c'] l IH]; intros st Hnd; simpl.
  - by rewrite lookup_empty.
  - apply NoDup_cons in Hnd as [Hk' Hnd]. rewrite IH by done.
    destruct (decide (k' = k)) as [->|Hne].
    + rewrite (not_elem_of_list_to_map_1 _ k) by done.
      by rewrite lookup_insert_eq, change_step_same.
    + rewrite lookup_insert_ne by done.
      by rewrite !change_step_other.
Qed.

Lemma existsb_agree {A} (f g : A → bool) (l : list A) :
  (∀ x, x ∈ l → f x = g x) → existsb f l = existsb g l.
Proof.
  induction l as [|x l IH]; intros Hfg; simpl; [done|].
  rewrite (Hfg x) by left. rewrite IH; [done|].
  intros y Hy. apply Hfg. by right.
Qed.

Lemma changes_loop_flag prev l st :
  NoDup l.*1 →
  hasChanges (foldl (change_step prev) st l)
  = hasChanges st
    || existsb (λ e, touches (Js.or_zero (prev !! e.1))
                             (newInvestmentRecord st !! e.1) e.2) l.
Proof.
  revert st. induction l as [|[k' c'] l IH]; intros st Hnd; simpl.
  - by rewrite orb_false_r.
  - apply NoDup_cons in Hnd as [Hk' Hnd]. rewrite IH by done.
    rewrite change_step_flag, <- orb_assoc. do 2 f_equal.
    apply existsb_agree. intros [k c] Hin. simpl.
    rewrite change_step_other; [done|].
    intros ->. apply Hk'. apply list_elem_of_fmap. by exists (k, c).
Qed.

Lemma process_changes_lookup cur prev st k :
  newInvestmentRecord (process_changes cur prev st) !! k
  = match cur !! k with
    | Some c => entry_after (Js.or_zero (prev !! k))
                            (newInvestmentRecord st !! k) c
    | None => newInvestmentRecord st !! k
    end.
Proof.
  unfold process_changes. rewrite changes_loop_lookup.
  - by rewrite list_to_map_to_list.
  - apply NoDup_fst_map_to_list.
Qed.

Lemma process_changes_flag cur prev st :
  hasChanges (process_changes cur prev st)
  = hasChanges st
    || existsb (λ e, touches (Js.or_zero (prev !! e.1))
                             (newInvestmentRecord st !! e.1) e.2)
               (map_to_list cur).
Proof. apply changes_loop_flag, NoDup_fst_map_to_list. Qed.

Lemma removed_step_same cur st k v :
  newInvestmentRecord (removed_step cur st (k, v)) !! k
  = if stale cur (k, v) then None else newInvestmentRecord st !! k.
Proof.
  unfold removed_step, stale. simpl.
  case_match; simpl; by rewrite ?lookup_delete_eq.
Qed.

Lemma removed_step_other cur st k k' v :
  k' ≠ k →
  newInvestmentRecord (removed_step cur st (k', v)) !! k
  = newInvestmentRecord st !! k.
Proof.
  intros Hne. unfold removed_step.
  case_match; simpl; by rewrite ?lookup_delete_ne.
Qed.

Lemma removed_step_flag cur st e :
  hasChanges (removed_step cur st e) = hasChanges st || stale cur e.
Proof.
  destruct e as [k v]. unfold removed_step, stale. simpl.
  case_match; simpl; by rewrite ?orb_true_r, ?orb_false_r.
Qed.

Lemma removed_loop_lookup cur l st k :
  NoDup l.*1 →
  newInvestmentRecord (foldl (removed_step cur) st l) !! k
  = match (list_to_map l : gmap string Z) !! k with
    | Some v => if stale cur (k, v) then None
                else newInvestmentRecord st !! k
    | None => newInvestmentRecord st !! k
    end.
Proof.
  revert st. induction l as [|[k' v'] l IH]; intros st Hnd; simpl.
  - by rewrite lookup_empty.
  - apply NoDup_cons in Hnd as [Hk' Hnd]. rewrite IH by done.
    destruct (decide (k' = k)) as [->|Hne].
    + rewrite (not_elem_of_list_to_map_1 _ k) by done.
      by rewrite lookup_insert_eq, removed_step_same.
    + rewrite lookup_insert_ne by done.
      by rewrite !removed_step_other.
Qed.

Lemma removed_loop_flag cur l st :
  hasChanges (foldl (removed_step cur) st l)
  = hasChanges st || existsb (stale cur) l.
Proof.
  revert st. induction l as [|e l IH]; intros st; simpl.
  - by rewrite orb_false_r.
  - by rewrite IH, removed_step_flag, orb_assoc.
Qed.

Lemma process_removed_lookup cur st k :
  newInvestmentRecord (process_removed cur st) !! k
  = match newInvestmentRecord st !! k with
    | Some v => if stale cur (k, v) then None else Some v
    | None => None
    end.
Proof.
  unfold process_removed. rewrite removed_loop_lookup.
  - rewrite list_to_map_to_list. by destruct (newInvestmentRecord st !! k).
  - apply NoDup_fst_map_to_list.
Qed.

Lemma process_removed_flag cur st :
  hasChanges (process_removed cur st)
  = hasChanges st
    || existsb (stale cur) (map_to_list (newInvestmentRecord st)).
Proof. apply removed_loop_flag. Qed.

(** What the whole reconciliation leaves for one item. *)
Lemma reconcile_lookup cur prev L k :
  newInvestmentRecord (reconcile cur prev L) !! k
  = match
      match cur !! k with
      | Some c => entry_after (Js.or_zero (prev !! k)) (L !! k) c
      | None => L !! k
      end
    with
    | Some v => if stale cur (k, v) then None else Some v
    | None => None
    end.
Proof.
  unfold reconcile.
  by rewrite process_removed_lookup, process_changes_lookup, spread_copy.
Qed.

(** No entry that the second loop would delete is left in the result. *)
Lemma reconcile_no_stale cur prev L k v :
  newInvestmentRecord (reconcile cur prev L) !! k = Some v →
  stale cur (k, v) = false.
Proof.
  rewrite reconcile_lookup. repeat case_match; congruence.
Qed.

End loops.

(** ** Reconciliation: whole-run facts *)

Section reconcile_facts.

Import Ledger.

Implicit Types (cur prev L : gmap string Z) (st : state) (k : string).

#[local] Arguments change_step : simpl never.

Lemma existsb_true_elem {A} (f : A → bool) (l : list A) x :
  x ∈ l → f x = true → existsb f l = true.
Proof.
  intros Hin Hf. apply existsb_exists. exists x.
  split; [by apply list_elem_of_In | done].
Qed.

Lemma existsb_false_all {A} (f : A → bool) (l : list A) :
  existsb f l = false ↔ ∀ x, x ∈ l → f x = false.
Proof.
  induction l as [|y l IH]; simpl.
  - split; [intros _ x Hx; by apply elem_of_nil in Hx | done].
  - rewrite orb_false_iff, IH. split.
    + intros [Hy Hl] x [->|Hx]%elem_of_cons; auto.
    + intros H. split; [apply H; left | intros x Hx; apply H; by right].
Qed.

(** With the previous snapshot equal to the current one the first loop
    changes nothing. *)
Lemma change_step_same_snapshot cur st k c :
  cur !! k = Some c → change_step cur st (k, c) = st.
Proof.
  intros Hk. unfold change_step. rewrite Hk. simpl.
  by rewrite Z.sub_diag.
Qed.

Lemma process_changes_same_snapshot cur st :
  process_changes cur cur st = st.
Proof.
  unfold process_changes.
  assert (Hall : ∀ e, e ∈ map_to_list cur → cur !! e.1 = Some e.2).
  { intros [k c] Hin. by apply elem_of_map_to_list. }
  induction (map_to_list cur) as [|[k c] l IH]; simpl; [done|].
  rewrite change_step_same_snapshot.
  - apply IH. intros e He. apply Hall. by right.
  - apply (Hall (k, c)). left.
Qed.

Lemma stale_own cur k c v :
  cur !! k = Some c → stale cur (k, v) = (c =? 0) && (0 <? v).
Proof. intros H. unfold stale, Js.falsy_at. simpl. by rewrite H. Qed.

Lemma stale_missing cur k v :
  cur !! k = None → stale cur (k, v) = negb (Js.inherited k) && (0 <? v).
Proof. intros H. unfold stale, Js.falsy_at. simpl. by rewrite H. Qed.

Lemma reconcile_flag cur prev L :
  hasChanges (reconcile cur prev L)
  = existsb (λ e, touches (Js.or_zero (prev !! e.1)) (L !! e.1) e.2)
            (map_to_list cur)
    || existsb (stale cur)
         (map_to_list (newInvestmentRecord
            (process_changes cur prev (State L false)))).
Proof.
  unfold reconcile.
  by rewrite process_removed_flag, process_changes_flag, spread_copy.
Qed.

Lemma reconcile_same_snapshot_flag (A : gmap string Z) L :
  hasChanges (reconcile A A L) = existsb (stale A) (map_to_list L).
Proof.
  unfold reconcile.
  by rewrite process_removed_flag, process_changes_same_snapshot, spread_copy.
Qed.

Lemma changes_same_snapshot (A : gmap string Z) : changes A A = [].
Proof.
  unfold changes.
  induction (map_to_list A) as [|e l IH]; [done|].
  rewrite filter_cons_False; [done|].
  unfold differs. rewrite bool_decide_eq_true. tauto.
Qed.

End reconcile_facts.

(** ** Claims on the reconciliation engine *)

(** The two acquisition and depletion scenarios of the specification. *)
Example diamond_scenario :
  Ledger.newInvestmentRecord
    (Ledger.reconcile {["Diamond" := 15]} {["Diamond" := 20]}
                      {["Diamond" := 10]}) = {["Diamond" := 5]}
  ∧ Ledger.hasChanges
      (Ledger.reconcile {["Diamond" := 15]} {["Diamond" := 20]}
                        {["Diamond" := 10]}) = true
  ∧ Ledger.changes {["Diamond" := 15]} {["Diamond" := 20]}
    = [("Diamond", 20, 15)].
Proof. by vm_compute. Qed.

Example sword_scenario :
  Ledger.newInvestmentRecord (Ledger.reconcile {["Sword" := 2]} ∅ ∅)
  = {["Sword" := 2]}
  ∧ Ledger.changes {["Sword" := 2]} ∅ = [("Sword", 0, 2)].
Proof. by vm_compute. Qed.

(** X24: an item that is absent from the current snapshot, whose name is
    not a property name of [Object.prototype] and whose incoming ledger value
    is strictly positive has no entry in the outgoing ledger. *)
Theorem absent_item_pruned (cur prev L : gmap string Z) (k : string) (v : Z) :
  Js.inherited k = false →
  cur !! k = None →
  L !! k = Some v →
  0 < v →
  Ledger.newInvestmentRecord (Ledger.reconcile cur prev L) !! k = None.
Proof.
  intros Hk Hcur HL Hv. rewrite reconcile_lookup, Hcur, HL.
  rewrite stale_missing, Hk by done. simpl.
  by destruct (Z.ltb_spec 0 v); [|lia].
Qed.

(** The scenario of the specification: ledger [{Bow: 3}], previous snapshot
    [{Bow: 1}], current snapshot [{}]. *)
Lemma absent_item_pruned_witness :
  Js.inherited "Bow" = false ∧
  (∅ : gmap string Z) !! "Bow" = None ∧
  ({["Bow" := 3]} : gmap string Z) !! "Bow" = Some 3 ∧
  0 < 3 ∧
  Ledger.newInvestmentRecord
    (Ledger.reconcile ∅ {["Bow" := 1]} {["Bow" := 3]}) !! "Bow" = None.
Proof.
  split; [reflexivity|]. split; [reflexivity|]. split; [reflexivity|].
  split; [lia|].
  apply (absent_item_pruned ∅ {["Bow" := 1]} {["Bow" := 3]} "Bow" 3);
    [reflexivity | reflexivity | reflexivity | lia].
Defined.


(** C1, as the code has it: line 169 deletes an entry only when its value is
    strictly positive, so an entry of value 0 for an item that is absent from
    the current snapshot stays in the outgoing ledger, with value 0. *)
Theorem C1_absent_zero_entry_kept (cur prev L : gmap string Z) (k : string) :
  L !! k = Some 0 →
  cur !! k = None →
  Ledger.newInvestmentRecord (Ledger.reconcile cur prev L) !! k = Some 0.
Proof.
  intros HL Hcur. rewrite reconcile_lookup, Hcur, HL.
  unfold Ledger.stale, Js.falsy_at. simpl. by rewrite andb_false_r.
Qed.

Lemma C1_absent_zero_entry_kept_witness :
  ({["Bow" := 0]} : gmap string Z) !! "Bow" = Some 0 ∧
  (∅ : gmap string Z) !! "Bow" = None ∧
  Ledger.newInvestmentRecord
    (Ledger.reconcile ∅ {["Bow" := 1]} {["Bow" := 0]}) !! "Bow" = Some 0.
Proof.
  split; [reflexivity|]. split; [reflexivity|].
  apply (C1_absent_zero_entry_kept ∅ {["Bow" := 1]} {["Bow" := 0]} "Bow");
    reflexivity.
Defined.

(** C1 as stated fails: ledger [{Bow: 0}], empty previous and current
    snapshots; [Bow] is still a key of the outgoing ledger. *)
Lemma C1_zero_entry_survives :
  ({["Bow" := 0]} : gmap string Z) !! "Bow" = Some 0 ∧
  (∅ : gmap string Z) !! "Bow" = None ∧
  Ledger.newInvestmentRecord (Ledger.reconcile ∅ ∅ {["Bow" := 0]}) !! "Bow"
  ≠ None.
Proof. by vm_compute. Qed.

(** C2, as the code has it: reconciling a snapshot against itself gives an
    empty change set and leaves the first loop idle, but the second loop
    still runs: for a ledger whose names are not property names of
    [Object.prototype], [hasChanges] is false exactly when every ledger entry
    of strictly positive value names an item held in a non-zero quantity. *)
Theorem C2_unchanged_snapshot (A L : gmap string Z) :
  (∀ k, is_Some (L !! k) → Js.inherited k = false) →
  Ledger.changes A A = [] ∧
  (Ledger.hasChanges (Ledger.reconcile A A L) = false ↔
   ∀ k v, L !! k = Some v → 0 < v → ∃ c, A !! k = Some c ∧ c ≠ 0).
Proof.
  intros Hplain.
  split; [apply changes_same_snapshot|].
  rewrite reconcile_same_snapshot_flag, existsb_false_all. split.
  - intros H k v HL Hv.
    specialize (H (k, v)). rewrite elem_of_map_to_list in H.
    specialize (H HL).
    destruct (A !! k) as [c|] eqn:HA.
    + rewrite (stale_own A k c v HA) in H.
      exists c. split; [done|]. intros ->. simpl in H.
      destruct (Z.ltb_spec 0 v); [done | lia].
    + rewrite (stale_missing A k v HA), (Hplain k) in H by eauto.
      simpl in H. destruct (Z.ltb_spec 0 v); [done | lia].
  - intros H [k v] HL%elem_of_map_to_list.
    destruct (Z.ltb_spec 0 v) as [Hv|Hv].
    + destruct (H k v HL Hv) as (c & HA & Hc).
      rewrite (stale_own A k c v HA). by destruct (Z.eqb_spec c 0).
    + unfold Ledger.stale, Js.falsy_at. simpl.
      destruct (Z.ltb_spec 0 v); [lia|]. by rewrite andb_false_r.
Qed.

Lemma C2_unchanged_snapshot_witness :
  Ledger.changes {["Arrow" := 1]} {["Arrow" := 1]} = []
  ∧ (Ledger.hasChanges
       (Ledger.reconcile {["Arrow" := 1]} {["Arrow" := 1]} {["Bow" := 3]})
     = false ↔
     ∀ k v, ({["Bow" := 3]} : gmap string Z) !! k = Some v → 0 < v →
            ∃ c, ({["Arrow" := 1]} : gmap string Z) !! k = Some c ∧ c ≠ 0).
Proof.
  apply (C2_unchanged_snapshot {["Arrow" := 1]} {["Bow" := 3]}).
  intros k [v Hv]. apply lookup_singleton_Some in Hv as [<- _]. reflexivity.
Defined.

(** C2 as stated fails: snapshot [{}] against itself with ledger [{Bow: 3}]
    sets [hasChanges]. *)
Lemma C2_dirty_on_unchanged_snapshot :
  Ledger.hasChanges (Ledger.reconcile ∅ ∅ {["Bow" := 3]}) = true ∧
  Ledger.changes ∅ ∅ = [].
Proof. by vm_compute. Qed.

(** C6: a second reconciliation of the same current snapshot, against the
    first call's current snapshot as previous one and the first call's
    ledger, does not set [hasChanges]. *)
Theorem C6_second_reconcile_clean (cur prev L : gmap string Z) :
  Ledger.hasChanges
    (Ledger.reconcile cur cur
       (Ledger.newInvestmentRecord (Ledger.reconcile cur prev L))) = false.
Proof.
  rewrite reconcile_same_snapshot_flag, existsb_false_all.
  intros [k v] Hin%elem_of_map_to_list.
  by apply (reconcile_no_stale cur prev L).
Qed.

Section flag_sources.

Import Ledger.

Implicit Types (cur prev L : gmap string Z) (k : string).

Lemma reconcile_flag_touched cur prev L k c :
  cur !! k = Some c →
  touches (Js.or_zero (prev !! k)) (L !! k) c = true →
  hasChanges (reconcile cur prev L) = true.
Proof.
  intros Hk Ht. rewrite reconcile_flag. apply orb_true_iff. left.
  apply (existsb_true_elem _ _ (k, c)); [|done].
  by apply elem_of_map_to_list.
Qed.

Lemma reconcile_flag_stale cur prev L k x :
  match cur !! k with
  | Some c => entry_after (Js.or_zero (prev !! k)) (L !! k) c
  | None => L !! k
  end = Some x →
  stale cur (k, x) = true →
  hasChanges (reconcile cur prev L) = true.
Proof.
  intros Hk Hs. rewrite reconcile_flag. apply orb_true_iff. right.
  apply (existsb_true_elem _ _ (k, x)); [|done].
  apply elem_of_map_to_list. by rewrite process_changes_lookup.
Qed.

Lemma state_eq (s1 s2 : state) :
  newInvestmentRecord s1 = newInvestmentRecord s2 →
  hasChanges s1 = hasChanges s2 →
  s1 = s2.
Proof. destruct s1, s2; simpl; congruence. Qed.

End flag_sources.

(** C4, as the code has it: for an item of the current snapshot whose
    quantity dropped, with no negative value in the incoming ledger, the
    outgoing value (0 when the entry is absent) is never negative; it is
    [max 0 (prior - (previous - current))] when the current quantity is not 0
    or when that maximum is 0, and then the entry is present exactly when it
    was present in the incoming ledger.  When the current quantity is 0 and
    something is left after the depletion, line 169 deletes the entry. *)
Theorem C4_depletion_floor (cur prev L : gmap string Z) (k : string) (c : Z) :
  cur !! k = Some c →
  c < Js.or_zero (prev !! k) →
  map_Forall (λ _ v, 0 ≤ v) L →
  0 ≤ Js.or_zero (Ledger.newInvestmentRecord (Ledger.reconcile cur prev L) !! k)
  ∧ (c ≠ 0 ∨ Js.or_zero (L !! k) ≤ Js.or_zero (prev !! k) - c →
     Ledger.newInvestmentRecord (Ledger.reconcile cur prev L) !! k
     = (λ v, Z.max 0 (v - (Js.or_zero (prev !! k) - c))) <$> L !! k
     ∧ Js.or_zero (Ledger.newInvestmentRecord (Ledger.reconcile cur prev L) !! k)
       = Z.max 0 (Js.or_zero (L !! k) - (Js.or_zero (prev !! k) - c)))
  ∧ (c = 0 → Js.or_zero (prev !! k) - c < Js.or_zero (L !! k) →
     Ledger.newInvestmentRecord (Ledger.reconcile cur prev L) !! k = None).
Proof.
  intros Hcur Hlt Hpos. rewrite reconcile_lookup, Hcur.
  unfold Ledger.entry_after, Ledger.stale, Js.falsy_at. simpl. rewrite Hcur. simpl.
  set (p := Js.or_zero (prev !! k)) in *.
  assert (Hold : 0 ≤ Js.or_zero (L !! k)).
  { destruct (L !! k) as [v|] eqn:HL; simpl; [|lia]. by apply (Hpos k v). }
  destruct (Z.ltb_spec 0 (c - p)); [lia|].
  destruct (Z.ltb_spec (c - p) 0); [|lia].
  destruct (L !! k) as [v|]; simpl in *.
  - destruct (Z.ltb_spec 0 (Z.min (Z.abs (c - p)) v)).
    + destruct (Z.eqb_spec c 0), (Z.ltb_spec 0 (v - Z.min (Z.abs (c - p)) v));
        simpl; (split; [lia|]); (split; [intros [?|?]|intros ? ?]);
        try done; try lia; try (split; [f_equal|]; lia).
    + destruct (Z.eqb_spec c 0), (Z.ltb_spec 0 v);
        simpl; (split; [lia|]); (split; [intros [?|?]|intros ? ?]);
        try done; try lia; try (split; [f_equal|]; lia).
  - destruct (Z.ltb_spec 0 (Z.min (Z.abs (c - p)) 0)); [lia|]. simpl.
    split; [lia|]. split; [intros _; split; [done|lia] | done].
Qed.

(** The Diamond scenario: ledger [{Diamond: 10}], previous snapshot
    [{Diamond: 20}], current snapshot [{Diamond: 15}]. *)
Lemma C4_diamond_scenario :
  Ledger.newInvestmentRecord
    (Ledger.reconcile {["Diamond" := 15]} {["Diamond" := 20]}
                      {["Diamond" := 10]}) !! "Diamond"
  = Some (Z.max 0 (10 - (20 - 15))).
Proof.
  assert (Hcur : ({["Diamond" := 15]} : gmap string Z) !! "Diamond" = Some 15)
    by reflexivity.
  assert (Hlt : 15 < Js.or_zero (({["Diamond" := 20]} : gmap string Z) !! "Diamond"))
    by (vm_compute; reflexivity).
  assert (Hpos : map_Forall (λ _ v, 0 ≤ v) ({["Diamond" := 10]} : gmap string Z))
    by (apply map_Forall_singleton; lia).
  destruct (C4_depletion_floor _ _ _ _ _ Hcur Hlt Hpos) as (_ & H & _).
  destruct H as [H _]; [left; lia | exact H].
Defined.

(** C4 as stated fails when the current quantity is 0: ledger [{Bow: 3}],
    previous snapshot [{Bow: 1}], current snapshot [{Bow: 0}].  The claim
    asks for [max 0 (3 - (1 - 0)) = 2]; the entry is deleted. *)
Lemma C4_zero_quantity_entry_deleted :
  ({["Bow" := 0]} : gmap string Z) !! "Bow" = Some 0 ∧
  0 < Js.or_zero (({["Bow" := 1]} : gmap string Z) !! "Bow") ∧
  map_Forall (λ _ v, 0 ≤ v) ({["Bow" := 3]} : gmap string Z) ∧
  Z.max 0 (3 - (1 - 0)) = 2 ∧
  Ledger.newInvestmentRecord
    (Ledger.reconcile {["Bow" := 0]} {["Bow" := 1]} {["Bow" := 3]}) !! "Bow"
  = None.
Proof.
  split; [reflexivity|]. split; [by vm_compute|].
  split; [apply map_Forall_singleton; lia|]. split; reflexivity.
Qed.

(** C10, as the code has it: for an item that the current snapshot holds
    with quantity 0 and whose incoming ledger value [v] is strictly positive,
    [hasChanges] is set.  The test of line 169 is on the truthiness of the
    quantity, but it reads the value left by the first loop: when the
    previous quantity is below [v] something is left and the entry is
    deleted; the outgoing ledger and [hasChanges] are then those obtained
    without the item in the current snapshot, for a name that is not a
    property name of [Object.prototype].  When the previous quantity is at
    least [v] the first loop has driven the entry to 0 and it stays in the
    outgoing ledger. *)
Theorem C10_zero_quantity_item (cur prev L : gmap string Z) (k : string) (v : Z) :
  cur !! k = Some 0 →
  L !! k = Some v →
  0 < v →
  Ledger.hasChanges (Ledger.reconcile cur prev L) = true
  ∧ (Js.or_zero (prev !! k) < v →
     Ledger.newInvestmentRecord (Ledger.reconcile cur prev L) !! k = None
     ∧ (Js.inherited k = false →
        Ledger.newInvestmentRecord (Ledger.reconcile cur prev L)
        = Ledger.newInvestmentRecord (Ledger.reconcile (delete k cur) prev L)
        ∧ Ledger.hasChanges (Ledger.reconcile cur prev L)
          = Ledger.hasChanges (Ledger.reconcile (delete k cur) prev L)))
  ∧ (v ≤ Js.or_zero (prev !! k) →
     Ledger.newInvestmentRecord (Ledger.reconcile cur prev L) !! k = Some 0).
Proof.
  intros Hcur HL Hv.
  set (p := Js.or_zero (prev !! k)).
  assert (Hmid : ∀ x,
    Ledger.entry_after p (Some v) 0 = Some x →
    Ledger.newInvestmentRecord (Ledger.reconcile cur prev L) !! k
    = if 0 <? x then None else Some x).
  { intros x Hx. rewrite reconcile_lookup, Hcur, HL. fold p. rewrite Hx.
    unfold Ledger.stale, Js.falsy_at. simpl. by rewrite Hcur. }
  assert (Hflag : Ledger.hasChanges (Ledger.reconcile cur prev L) = true).
  { destruct (Ledger.touches p (Some v) 0) eqn:Ht.
    - apply (reconcile_flag_touched cur prev L k 0); [done|].
      by rewrite HL.
    - apply (reconcile_flag_stale cur prev L k v).
      + rewrite Hcur, HL. fold p. revert Ht.
        unfold Ledger.touches, Ledger.entry_after. simpl.
        repeat case_match; congruence.
      + unfold Ledger.stale, Js.falsy_at. simpl. rewrite Hcur. simpl.
        by destruct (Z.ltb_spec 0 v); [|lia]. }
  split; [done|]. split.
  - intros Hp.
    assert (Hout :
      Ledger.newInvestmentRecord (Ledger.reconcile cur prev L) !! k = None).
    { assert (∃ x, Ledger.entry_after p (Some v) 0 = Some x ∧ 0 < x)
        as (x & Hx & Hpos).
      { unfold Ledger.entry_after. simpl.
        destruct (Z.ltb_spec 0 (0 - p)); [eexists; split; [done|lia]|].
        destruct (Z.ltb_spec (0 - p) 0); [|eexists; split; [done|lia]].
        destruct (Z.ltb_spec 0 (Z.min (Z.abs (0 - p)) v));
          eexists; (split; [done|lia]). }
      rewrite (Hmid x Hx). by destruct (Z.ltb_spec 0 x); [|lia]. }
    split; [done|]. intros Hplain.
    assert (Hgone : Ledger.stale (delete k cur) (k, v) = true).
    { rewrite stale_missing, Hplain by apply lookup_delete_eq. simpl.
      by destruct (Z.ltb_spec 0 v); [|lia]. }
    assert (Hflag' :
      Ledger.hasChanges (Ledger.reconcile (delete k cur) prev L) = true).
    { apply (reconcile_flag_stale _ prev L k v); [|done].
      by rewrite lookup_delete_eq. }
    split; [|congruence].
    apply map_eq. intros j. destruct (decide (j = k)) as [->|Hne].
    + rewrite Hout. symmetry. rewrite reconcile_lookup, lookup_delete_eq, HL.
      by rewrite Hgone.
    + rewrite !reconcile_lookup. unfold Ledger.stale, Js.falsy_at. simpl.
      by rewrite !lookup_delete_ne.
  - intros Hp. rewrite (Hmid 0); [done|].
    unfold Ledger.entry_after. simpl.
    destruct (Z.ltb_spec 0 (0 - p)); [lia|].
    destruct (Z.ltb_spec (0 - p) 0); [|lia].
    destruct (Z.ltb_spec 0 (Z.min (Z.abs (0 - p)) v)); [f_equal|]; lia.
Qed.

Lemma C10_zero_quantity_item_witness :
  Ledger.hasChanges
    (Ledger.reconcile {["Bow" := 0]} {["Bow" := 1]} {["Bow" := 3]}) = true.
Proof.
  assert (Hcur : ({["Bow" := 0]} : gmap string Z) !! "Bow" = Some 0)
    by reflexivity.
  assert (HL : ({["Bow" := 3]} : gmap string Z) !! "Bow" = Some 3)
    by reflexivity.
  assert (Hv : 0 < 3) by lia.
  exact (proj1 (C10_zero_quantity_item _ {["Bow" := 1]} _ _ _ Hcur HL Hv)).
Defined.

(** C10 as stated fails when the previous quantity reaches the ledger value:
    ledger [{Bow: 3}], previous snapshot [{Bow: 5}], current snapshot
    [{Bow: 0}].  The entry is not deleted, whereas it is with [Bow] missing
    from the current snapshot. *)
Lemma C10_zero_quantity_entry_kept :
  ({["Bow" := 0]} : gmap string Z) !! "Bow" = Some 0 ∧
  ({["Bow" := 3]} : gmap string Z) !! "Bow" = Some 3 ∧
  Ledger.newInvestmentRecord
    (Ledger.reconcile {["Bow" := 0]} {["Bow" := 5]} {["Bow" := 3]}) !! "Bow"
  = Some 0 ∧
  Ledger.newInvestmentRecord
    (Ledger.reconcile ∅ {["Bow" := 5]} {["Bow" := 3]}) !! "Bow"
  = None.
Proof. by vm_compute. Qed.

(** ** Snapshot extraction *)

Section extraction.

Import Extract.

Implicit Types (c : container) (m : gmap string Z) (k : string).

Lemma add_item_no_id m item : no_id item = true → add_item m item = m.
Proof.
  destruct item as [s|]; simpl; [|done]. by intros ->.
Qed.

Lemma add_item_lookup m item k :
  add_item m item !! k
  = match counted k item with
    | Some z => Some (Js.or_zero (m !! k) + z)
    | None => m !! k
    end.
Proof.
  destruct item as [s|]; simpl; [|done].
  destruct (Js.not (id s)); [done|].
  case_bool_decide as Hk.
  - subst k. by rewrite lookup_insert_eq.
  - by rewrite lookup_insert_ne.
Qed.

Lemma foldl_add_item_lookup c m k :
  foldl add_item m c !! k
  = match counts_for k c with
    | [] => m !! k
    | zs => Some (Js.or_zero (m !! k) + foldr Z.add 0 zs)
    end.
Proof.
  revert m. induction c as [|item c IH]; intros m; [done|].
  simpl. rewrite IH, add_item_lookup. unfold counts_for. simpl.
  destruct (counted k item) as [z|]; [|done]. simpl.
  destruct (omap (counted k) c); simpl; f_equal; lia.
Qed.

End extraction.

(** C7: the merged snapshot takes, for every name, the value of the last
    source holding it -- bulk storage, else ender-chest, else inventory --
    and nothing from the earlier ones. *)
Theorem C7_merge_last_source_wins (d : Extract.inventoryData) (k : string) :
  Extract.currentInventory d !! k
  = match Extract.storage d !! k with
    | Some v => Some v
    | None =>
        match Extract.enderchest d !! k with
        | Some v => Some v
        | None => Extract.inventory d !! k
        end
    end.
Proof.
  unfold Extract.currentInventory.
  rewrite !spread_lookup, lookup_empty.
  by repeat case_match.
Qed.

Example merge_replaces_not_sums :
  Extract.currentInventory
    (Extract.InventoryData {["Bow" := 3]} {["Bow" := 5]} {["Arrow" := 64]})
  = {["Arrow" := 64; "Bow" := 5]}.
Proof. by vm_compute. Qed.

(** C9: [processContainer] skips a slot without item id, counts a slot
    without [Count] as 1, and records under each display name the sum of the
    counts of the slots carrying it; two slots of one name with counts 3 and 5
    give 8. *)
Theorem C9_processContainer_sums_slots :
  (∀ c1 c2 item,
     Extract.no_id item = true →
     Extract.processContainer (c1 ++ item :: c2)
     = Extract.processContainer (c1 ++ c2))
  ∧ (∀ c i n,
       i ≠ 0 → n ≠ "" →
       Extract.processContainer
         (c ++ [Some (Extract.Slot (Some i) (Some n) None)]) !! n
       = Some (Js.or_zero (Extract.processContainer c !! n) + 1))
  ∧ (∀ c k,
       Extract.processContainer c !! k
       = match Extract.counts_for k c with
         | [] => None
         | zs => Some (foldr Z.add 0 zs)
         end)
  ∧ (∀ i j n,
       i ≠ 0 → j ≠ 0 → n ≠ "" →
       Extract.processContainer
         [Some (Extract.Slot (Some i) (Some n) (Some 3));
          Some (Extract.Slot (Some j) (Some n) (Some 5))]
       = {[n := 8]}).
Proof.
  unfold Extract.processContainer. repeat split.
  - intros c1 c2 item Hid.
    by rewrite !foldl_app; simpl; rewrite add_item_no_id.
  - intros c i n Hi Hn. rewrite foldl_app. simpl.
    destruct (Z.eqb_spec i 0); [done|].
    unfold Extract.key_of, Extract.count_of. simpl.
    rewrite bool_decide_eq_false_2 by done.
    by rewrite lookup_insert_eq.
  - intros c k. rewrite foldl_add_item_lookup, lookup_empty.
    by destruct (Extract.counts_for k c).
  - intros i j n Hi Hj Hn. simpl.
    destruct (Z.eqb_spec i 0), (Z.eqb_spec j 0); try done.
    unfold Extract.key_of, Extract.count_of. simpl.
    rewrite bool_decide_eq_false_2 by done.
    rewrite lookup_empty, lookup_insert_eq, insert_insert_eq. simpl.
    by rewrite insert_empty.
Qed.

Lemma C9_two_slots_scenario :
  Extract.processContainer
    [Some (Extract.Slot (Some 261) (Some "Bow") (Some 3));
     None;
     Some (Extract.Slot None (Some "Bow") (Some 7));
     Some (Extract.Slot (Some 261) (Some "Bow") (Some 5))] !! "Bow"
  = Some 8.
Proof.
  destruct C9_processContainer_sums_slots as (_ & _ & H & _).
  rewrite H. reflexivity.
Defined.

(** ** The run *)

Section run_facts.

Import Run.

Implicit Types (E : env) (w : world).

Lemma sendTelegramMessage_returns E msg w :
  ∃ w', sendTelegramMessage E msg w = (Return (), w').
Proof.
  unfold sendTelegramMessage, try_catch.
  destruct (bind _ _ w) as [[[]|e] w']; eauto.
Qed.

Lemma getPlayerInventory_returns E w :
  ∃ r w', getPlayerInventory E w = (Return r, w').
Proof.
  unfold getPlayerInventory, try_catch.
  destruct (bind _ _ w) as [[r|e] w']; unfold ret; eauto.
Qed.

Lemma getPlayerInventory_inventory_of E :
  ∃ w', getPlayerInventory E start = (Return (inventory_of E), w').
Proof.
  unfold inventory_of.
  destruct (getPlayerInventory_returns E start) as (r & w' & ->). eauto.
Qed.

Lemma read_documents E w :
  (∀ prev L,
     read E "prev_inventory" = Some prev →
     read E "investment_record" = Some L →
     promise_all (getFirebaseData E "prev_inventory")
                 (getFirebaseData E "investment_record") w
     = (Return (prev, L), w))
  ∧ (read E "prev_inventory" = None ∨ read E "investment_record" = None →
     ∃ e, promise_all (getFirebaseData E "prev_inventory")
                      (getFirebaseData E "investment_record") w
          = (Throw e, w)).
Proof.
  unfold promise_all, getFirebaseData, read.
  destruct (getDoc E "prev_inventory") as [?|[?|]],
           (getDoc E "investment_record") as [?|[?|]];
    (split; [intros ?? [= <-] [= <-] || intros ?? [=] || intros ?? ? [=]|]);
    try done; intros [?|?]; try done; by eexists.
Qed.

Ltac telegram_returns :=
  match goal with
  | |- context [sendTelegramMessage ?E ?m ?w] =>
      let w' := fresh "w" in
      destruct (sendTelegramMessage_returns E m w) as [w' ->]
  end.

(** The exit status as a function of what the outside world answers. *)
Lemma exit_status_cases E :
  exit_status E
  = if configured E then
      match inventory_of E with
      | None => 0
      | Some d =>
          match read E "prev_inventory", read E "investment_record" with
          | Some prev, Some L =>
              match
                setDoc E "prev_inventory" (Extract.currentInventory d),
                setDoc E "investment_record"
                  (Ledger.newInvestmentRecord
                     (Ledger.reconcile (Extract.currentInventory d) prev L))
              with
              | None, None => 0
              | _, _ => 1
              end
          | _, _ => 1
          end
      end
    else 1.
Proof.
  unfold exit_status. destruct (configured E); [|done].
  unfold main, checkInventoryChanges.
  unfold try_catch at 1. unfold bind at 1. unfold try_catch at 1.
  unfold bind at 1.
  destruct (getPlayerInventory_inventory_of E) as [w1 ->].
  destruct (inventory_of E) as [d|]; [|done].
  unfold bind at 1.
  destruct (read_documents E w1) as [Hread Hthrow].
  destruct (read E "prev_inventory") as [prev|].
  2:{ destruct Hthrow as [e ->]; [by left|]. unfold throw, bind.
      telegram_returns. done. }
  destruct (read E "investment_record") as [L|].
  2:{ destruct Hthrow as [e ->]; [by right|]. unfold throw, bind.
      telegram_returns. done. }
  rewrite (Hread prev L) by done. simpl. unfold bind at 1.
  set (st := Ledger.reconcile _ _ _).
  assert (∃ w2, (if Ledger.hasChanges st
                 then sendTelegramMessage E
                        (Message.update (PLAYER_NAME E)
                           (Extract.currentInventory d) prev)
                 else ret ()) w1 = (Return (), w2)) as [w2 ->].
  { destruct (Ledger.hasChanges st); [apply sendTelegramMessage_returns|].
    by eexists. }
  unfold bind at 1, promise_all, updateFirebaseData. simpl.
  destruct (setDoc E "prev_inventory" _), (setDoc E "investment_record" _);
    unfold throw, bind, ret; try telegram_returns; done.
Qed.

Lemma fetch_exhausted_no_inventory E :
  (∀ i, (i < MAX_RETRIES)%nat → fetch_fails E i) → inventory_of E = None.
Proof.
  intros Hfail. unfold inventory_of, getPlayerInventory.
  unfold try_catch at 1. unfold bind at 1.
  assert (∃ e w, fetchWithRetry E (ProfileGet (PLAYER_NAME E)) start
                 = (Throw e, w)) as (e & w & ->); [|done].
  pose proof (Hfail 0%nat) as H0. pose proof (Hfail 1%nat) as H1.
  pose proof (Hfail 2%nat) as H2. unfold fetch_fails, MAX_RETRIES in *.
  unfold fetchWithRetry, MAX_RETRIES, start. simpl.
  unfold try_catch, bind, do_fetch, throw. simpl.
  destruct (fetch E 0) as [?|r0]; [|rewrite H0 by lia]; simpl;
  (destruct (fetch E 1) as [?|r1]; [|rewrite H1 by lia]); simpl;
  (destruct (fetch E 2) as [?|r2]; [|rewrite H2 by lia]); simpl; eauto.
Qed.

Lemma find_current_cases (ps : list (option Api.profile)) w :
  (∃ e, find_current ps w = (Throw e, w))
  ∨ find_current ps w = (Return None, w)
  ∨ ∃ p, Some p ∈ ps ∧ Api.current p = true
         ∧ find_current ps w = (Return (Some p), w).
Proof.
  induction ps as [|[p|] ps IH]; simpl.
  - right. by left.
  - destruct (Api.current p) eqn:Hp.
    + right. right. exists p. split; [left|done].
    + destruct IH as [?|[?|(q & Hq & ? & ?)]]; [by left | right; by left |].
      right. right. exists q. split; [by right | done].
  - left. by eexists.
Qed.

Lemma fetchWithRetry_first_ok E req w r :
  fetch E (fetches w) = Responded r →
  ok r = true →
  fetchWithRetry E req w
  = (Return (Some r), World (S (fetches w)) (log w ++ [Requested req])).
Proof.
  intros Hf Hok. unfold fetchWithRetry, MAX_RETRIES, fetchWithRetry_from.
  unfold try_catch at 1. unfold bind at 1. unfold do_fetch at 1.
  by rewrite Hf, Hok.
Qed.

Lemma no_profiles_no_inventory E r :
  fetch E 0 = Responded r →
  ok r = true →
  json r = Some (Api.Body None) →
  inventory_of E = None.
Proof.
  intros Hf Hok Hjson. unfold inventory_of, getPlayerInventory.
  unfold try_catch at 1. unfold bind at 1.
  rewrite (fetchWithRetry_first_ok E _ start r) by done.
  unfold bind at 1. unfold response_json. by rewrite Hjson.
Qed.

Lemma no_items_no_inventory E r ps :
  fetch E 0 = Responded r →
  ok r = true →
  json r = Some (Api.Body (Some ps)) →
  (∀ p, Some p ∈ ps → Api.current p = true → items_of (Some p) = None) →
  inventory_of E = None.
Proof.
  intros Hf Hok Hjson Hps. unfold inventory_of, getPlayerInventory.
  unfold try_catch at 1. unfold bind at 1.
  rewrite (fetchWithRetry_first_ok E _ start r) by done.
  unfold bind at 1. unfold response_json. rewrite Hjson.
  unfold ret at 1. cbn [Api.profiles]. unfold bind at 1.
  match goal with |- context [find_current ps ?w] =>
    destruct (find_current_cases ps w) as [[e ->]|[->|(p & Hin & Hp & ->)]]
  end; [done..|].
  by rewrite (Hps p Hin Hp).
Qed.

End run_facts.

(** C3, as the code has it: the exit status is 0 or 1.  When one of the
    three required settings is empty or not set, the guard of lines 30-32
    throws while the module loads and the status is 1.  Otherwise
    [getPlayerInventory] catches every failure of its own -- a profile fetch
    that fails [MAX_RETRIES] times, a body without [profiles] object, a
    current profile without items section -- and returns [null]; the run is
    then skipped and the process exits with status 0.  The status is 1
    exactly when the guard throws, or the inventory is obtained and a read or
    a write of the document store throws. *)
Theorem C3_exit_status (E : Run.env) :
  (Run.exit_status E = 0 ∨ Run.exit_status E = 1)
  ∧ (Run.configured E = true → Run.inventory_of E = None →
     Run.exit_status E = 0)
  ∧ ((∀ i, (i < Run.MAX_RETRIES)%nat → Run.fetch_fails E i) →
     Run.inventory_of E = None)
  ∧ (∀ r, Run.fetch E 0 = Run.Responded r → Run.ok r = true →
          Run.json r = Some (Api.Body None) →
          Run.inventory_of E = None)
  ∧ (∀ r ps, Run.fetch E 0 = Run.Responded r → Run.ok r = true →
             Run.json r = Some (Api.Body (Some ps)) →
             (∀ p, Some p ∈ ps → Api.current p = true →
                   Run.items_of (Some p) = None) →
             Run.inventory_of E = None)
  ∧ (Run.exit_status E = 1 ↔
     Run.configured E = false
     ∨ ∃ d, Run.inventory_of E = Some d
        ∧ (Run.read E "prev_inventory" = None
           ∨ Run.read E "investment_record" = None
           ∨ ∃ prev L,
               Run.read E "prev_inventory" = Some prev
               ∧ Run.read E "investment_record" = Some L
               ∧ (Run.setDoc E "prev_inventory" (Extract.currentInventory d)
                  ≠ None
                  ∨ Run.setDoc E "investment_record"
                      (Ledger.newInvestmentRecord
                         (Ledger.reconcile (Extract.currentInventory d) prev L))
                    ≠ None))).
Proof.
  split; [|split; [|split; [|split; [|split]]]].
  - rewrite exit_status_cases. repeat case_match; auto.
  - intros Hc H. by rewrite exit_status_cases, Hc, H.
  - apply fetch_exhausted_no_inventory.
  - apply no_profiles_no_inventory.
  - apply no_items_no_inventory.
  - rewrite exit_status_cases.
    destruct (Run.configured E); [|by split; auto].
    destruct (Run.inventory_of E) as [d|].
    2:{ split; [done|]. by intros [?|(d & ? & _)]. }
    destruct (Run.read E "prev_inventory") as [prev|].
    2:{ split; [|done]. intros _. right. exists d. auto. }
    destruct (Run.read E "investment_record") as [L|].
    2:{ split; [|done]. intros _. right. exists d. auto. }
    split.
    + intros Hex. right. exists d. split; [done|].
      right. right. exists prev, L.
      split; [done|]. split; [done|].
      destruct (Run.setDoc E "prev_inventory" _); [by left|].
      destruct (Run.setDoc E "investment_record" _); [by right | done].
    + intros [?|(d' & [= <-] & Hst)]; [done|].
      destruct Hst as [?|[?|(prev' & L' & [= <-] & [= <-] & Hw)]]; try done.
      destruct Hw as [Hw|Hw]; repeat case_match; done.
Qed.

Lemma C3_exit_status_witness :
  Run.inventory_of Scenario.unreachable = None
  ∧ Run.exit_status Scenario.unreachable = 0.
Proof.
  assert (H : Run.inventory_of Scenario.unreachable = None).
  { apply (proj1 (proj2 (proj2 (C3_exit_status Scenario.unreachable)))).
    intros i _. exact I. }
  split; [exact H|].
  exact (proj1 (proj2 (C3_exit_status Scenario.unreachable)) eq_refl H).
Defined.

(** C3 as stated fails: with the profile API unreachable on all three
    attempts, with a body without [profiles], and with a current profile
    without items section, the process exits with status 0. *)
Lemma C3_failed_profile_exits_zero :
  Run.fetch_fails Scenario.unreachable 0
  ∧ Run.fetch_fails Scenario.unreachable 1
  ∧ Run.fetch_fails Scenario.unreachable 2
  ∧ Run.exit_status Scenario.unreachable = 0
  ∧ Run.exit_status Scenario.no_profiles = 0
  ∧ Run.exit_status Scenario.no_items = 0.
Proof. by vm_compute. Qed.

Example store_failure_exits_one : Run.exit_status Scenario.store_down = 1.
Proof. by vm_compute. Qed.

Example missing_setting_exits_one :
  Run.configured Cases.no_chat_id = false
  ∧ Run.exit_status Cases.no_chat_id = 1.
Proof. by vm_compute. Qed.

(** ** The notification text *)

Section notification.

Import Run.

Implicit Types (E : env) (w : world).

#[local] Arguments Text.of_string : simpl never.
#[local] Arguments Text.of_Z : simpl never.

Lemma fetchWithRetry_log E req w :
  ∃ n, (1 ≤ n ≤ MAX_RETRIES)%nat
       ∧ log (fetchWithRetry E req w).2 = log w ++ replicate n (Requested req).
Proof.
  unfold fetchWithRetry, MAX_RETRIES. cbn [fetchWithRetry_from].
  unfold try_catch, bind, do_fetch, throw, ret. simpl.
  destruct (fetch E (fetches w)) as [?|r0]; [|destruct (ok r0)]; simpl;
    try (exists 1%nat; split; [lia|done]);
    (destruct (fetch E (S (fetches w))) as [?|r1]; [|destruct (ok r1)]); simpl;
    try (exists 2%nat; split; [lia|by rewrite <- app_assoc]);
    (destruct (fetch E (S (S (fetches w)))) as [?|r2]; [|destruct (ok r2)]);
    simpl; exists 3%nat; (split; [lia|by rewrite <- !app_assoc]).
Qed.

Lemma sendTelegramMessage_world E msg w :
  (sendTelegramMessage E msg w).2
  = (fetchWithRetry E (TelegramPost (TELEGRAM_CHAT_ID E) msg "Markdown") w).2.
Proof.
  unfold sendTelegramMessage, try_catch, bind.
  destruct (fetchWithRetry _ _ w) as [[[r|]|e] w']; simpl; [|done..].
  by destruct (json r).
Qed.

Lemma transmitted_posts chat msg mode (n : nat) (events : list event) :
  transmitted (events ++ replicate n (Requested (TelegramPost chat msg mode)))
  = transmitted events ++ replicate n msg.
Proof.
  unfold transmitted. rewrite omap_app. f_equal.
  induction n as [|n IH]; [done|]. simpl. f_equal. exact IH.
Qed.

Lemma join_length_elem (sep : Text.t) (lines : list Text.t) (l : Text.t) :
  l ∈ lines → (length l ≤ length (Text.join sep lines))%nat.
Proof.
  induction lines as [|x rest IH]; intros Hin.
  - by apply elem_of_nil in Hin.
  - apply elem_of_cons in Hin as [->|Hin].
    + destruct rest; simpl; [done|]. rewrite length_app. lia.
    + specialize (IH Hin). destruct rest as [|y rest].
      * by apply elem_of_nil in Hin.
      * change (Text.join sep (x :: y :: rest))
          with (x ++ sep ++ Text.join sep (y :: rest)).
        rewrite !length_app. lia.
Qed.

Lemma line_longer_than_name (name : string) (p c : Z) :
  (length (Text.of_string name) < length (Message.line (name, p, c)))%nat.
Proof.
  unfold Message.line. rewrite !length_app.
  change (length (Text.of_string ": ")) with 2%nat. lia.
Qed.

End notification.

(** C8, as the code has it: [sendTelegramMessage] posts the text it is given,
    unchanged, on each of its one to [MAX_RETRIES] attempts; nothing is cut.
    The update message is longer than the name of every item of its change
    set, so no fixed bound holds for the transmitted text. *)
Theorem C8_text_sent_unchanged :
  (∀ (E : Run.env) (msg : Text.t) (w : Run.world),
     ∃ n, (1 ≤ n ≤ Run.MAX_RETRIES)%nat
          ∧ Run.transmitted (Run.log (Run.sendTelegramMessage E msg w).2)
            = Run.transmitted (Run.log w) ++ replicate n msg)
  ∧ (∀ (label : string) (cur prev : gmap string Z) name p c,
       (name, p, c) ∈ Ledger.changes cur prev →
       (length (Text.of_string name)
        < length (Message.update label cur prev))%nat).
Proof.
  split.
  - intros E msg w. rewrite sendTelegramMessage_world.
    destruct (fetchWithRetry_log E
                (Run.TelegramPost (Run.TELEGRAM_CHAT_ID E) msg "Markdown") w)
      as (n & Hn & ->).
    exists n. split; [done|]. apply transmitted_posts.
  - intros label cur prev name p c Hin. unfold Message.update.
    assert (Hline : Message.line (name, p, c)
                    ∈ Message.line <$> Ledger.changes cur prev).
    { apply list_elem_of_fmap. by exists (name, p, c). }
    rewrite bool_decide_eq_true_2.
    + rewrite !length_app.
      pose proof (join_length_elem Text.newline _ _ Hline).
      pose proof (line_longer_than_name name p c). lia.
    + destruct (Message.line <$> Ledger.changes cur prev).
      * by apply elem_of_nil in Hline.
      * simpl. lia.
Qed.

Lemma C8_text_sent_unchanged_witness :
  (length (Text.of_string "Sword")
   < length (Message.update "Steve" {["Sword" := 2%Z]} ∅))%nat.
Proof.
  apply (proj2 C8_text_sent_unchanged "Steve" {["Sword" := 2]} ∅ "Sword" 0 2).
  vm_compute. left.
Defined.

(** C8 as stated fails: on a first run that finds one item whose display name
    has 4001 characters, the single text handed to the notification sink is
    longer than 4000 units. *)
Lemma C8_long_text_not_truncated :
  (λ text, bool_decide (length text ≤ 4000)%nat)
    <$> Run.transmitted (Run.log (Run.main Scenario.long_item Run.start).2)
  = [false].
Proof. vm_compute. reflexivity. Qed.

(** * Further properties of the reconciliation *)

Section ledger_rules.

Import Ledger.

Implicit Types (cur prev L : gmap string Z) (k : string).

Lemma untouched_entry (p : Z) (old : option Z) (c : Z) :
  touches p old c = false → entry_after p old c = old.
Proof.
  unfold touches, entry_after. repeat case_match; congruence.
Qed.

Lemma touched_entry (p : Z) (old : option Z) (c : Z) :
  touches p old c = true →
  ∃ x, entry_after p old c = Some x ∧ old ≠ Some x
       ∧ (c = 0 → 0 ≤ p → ∃ v, old = Some v).
Proof.
  unfold touches, entry_after.
  destruct (Z.ltb_spec 0 (c - p)).
  - intros _. eexists. split; [done|]. split.
    + destruct old; simpl; [intros [=]|]; try done; lia.
    + lia.
  - destruct (Z.ltb_spec (c - p) 0); [|done].
    intros Hs. rewrite Hs. apply Z.ltb_lt in Hs. eexists. split; [done|].
    destruct old as [v|]; simpl in *; [|lia].
    split; [intros [=]; lia | eauto].
Qed.

End ledger_rules.

Lemma grown_entry (cur prev L : gmap string Z) (k : string) (c : Z) :
  cur !! k = Some c →
  Js.or_zero (prev !! k) < c →
  c ≠ 0 →
  Ledger.newInvestmentRecord (Ledger.reconcile cur prev L) !! k
  = Some (Js.or_zero (L !! k) + (c - Js.or_zero (prev !! k))).
Proof.
  intros Hcur Hlt Hc. rewrite reconcile_lookup, Hcur.
  unfold Ledger.entry_after, Ledger.stale, Js.falsy_at. simpl. rewrite Hcur. simpl.
  destruct (Z.ltb_spec 0 (c - Js.or_zero (prev !! k))); [|lia].
  by destruct (Z.eqb_spec c 0).
Qed.

(** X1: an item whose name is not a property name of [Object.prototype]
    and whose quantity grew to a non-zero value gets the growth added to its
    ledger value, a missing entry counting as 0. *)
Theorem acquisition_adds_growth (cur prev L : gmap string Z) (k : string) (c : Z) :
  Js.inherited k = false →
  cur !! k = Some c →
  Js.or_zero (prev !! k) < c →
  c ≠ 0 →
  Ledger.newInvestmentRecord (Ledger.reconcile cur prev L) !! k
  = Some (Js.or_zero (L !! k) + (c - Js.or_zero (prev !! k))).
Proof. intros _. apply grown_entry. Qed.

Lemma acquisition_adds_growth_witness :
  Ledger.newInvestmentRecord
    (Ledger.reconcile {["Sword" := 5]} {["Sword" := 2]} {["Sword" := 4]})
    !! "Sword"
  = Some (Js.or_zero (({["Sword" := 4]} : gmap string Z) !! "Sword")
          + (5 - Js.or_zero (({["Sword" := 2]} : gmap string Z) !! "Sword"))).
Proof.
  apply (acquisition_adds_growth {["Sword" := 5]} {["Sword" := 2]}
           {["Sword" := 4]} "Sword" 5);
    [reflexivity | reflexivity | by vm_compute | lia].
Defined.

(** X2: an item held in the same non-zero quantity as before keeps its
    ledger entry, present or missing, whatever its value. *)
Theorem steady_item_keeps_entry (cur prev L : gmap string Z) (k : string) (c : Z) :
  cur !! k = Some c →
  prev !! k = Some c →
  c ≠ 0 →
  Ledger.newInvestmentRecord (Ledger.reconcile cur prev L) !! k = L !! k.
Proof.
  intros Hcur Hprev Hc. rewrite reconcile_lookup, Hcur, Hprev.
  unfold Ledger.entry_after, Ledger.stale, Js.falsy_at. simpl.
  rewrite Z.sub_diag, Hcur. simpl.
  destruct (L !! k); [|done]. by destruct (Z.eqb_spec c 0).
Qed.

Lemma steady_item_keeps_entry_witness :
  Ledger.newInvestmentRecord
    (Ledger.reconcile {["Bow" := 1]} {["Bow" := 1]} {["Bow" := -7]}) !! "Bow"
  = ({["Bow" := -7]} : gmap string Z) !! "Bow".
Proof.
  apply (steady_item_keeps_entry {["Bow" := 1]} {["Bow" := 1]}
           {["Bow" := -7]} "Bow" 1); [reflexivity | reflexivity | lia].
Defined.

(** X3: the reconciliation keeps the ledger non-negative: when no incoming
    value is negative, no outgoing value is, whatever the snapshots hold. *)
Theorem ledger_stays_non_negative (cur prev L : gmap string Z) :
  map_Forall (λ _ v, 0 ≤ v) L →
  map_Forall (λ _ v, 0 ≤ v)
    (Ledger.newInvestmentRecord (Ledger.reconcile cur prev L)).
Proof.
  intros HL k v. rewrite reconcile_lookup.
  assert (Hold : 0 ≤ Js.or_zero (L !! k)).
  { destruct (L !! k) as [x|] eqn:Hx; simpl; [by apply (HL k x) | lia]. }
  assert (Hmid : ∀ x,
    match cur !! k with
    | Some c => Ledger.entry_after (Js.or_zero (prev !! k)) (L !! k) c
    | None => L !! k
    end = Some x → 0 ≤ x).
  { intros x. destruct (cur !! k) as [c|].
    - unfold Ledger.entry_after.
      destruct (Z.ltb_spec 0 (c - Js.or_zero (prev !! k))); [intros [= <-]; lia|].
      destruct (Z.ltb_spec (c - Js.or_zero (prev !! k)) 0).
      + destruct (Z.ltb_spec 0
                    (Z.min (Z.abs (c - Js.or_zero (prev !! k)))
                           (Js.or_zero (L !! k)))).
        * intros [= <-]. lia.
        * intros Hx. rewrite Hx in Hold. done.
      + intros Hx. rewrite Hx in Hold. done.
    - intros Hx. rewrite Hx in Hold. done. }
  destruct (match cur !! k with Some _ => _ | None => _ end) as [x|]; [|done].
  specialize (Hmid x eq_refl). case_match; [done|]. by intros [= <-].
Qed.

Lemma ledger_stays_non_negative_witness :
  map_Forall (λ _ v, 0 ≤ v)
    (Ledger.newInvestmentRecord
       (Ledger.reconcile {["Bow" := 1]} {["Bow" := 9]} {["Bow" := 3]})).
Proof.
  apply (ledger_stays_non_negative {["Bow" := 1]} {["Bow" := 9]} {["Bow" := 3]}).
  apply map_Forall_singleton. lia.
Defined.

(** X4: [hasChanges] tells whether the ledger was modified.  When it is not
    set the outgoing ledger is the incoming one; when no previous quantity is
    negative the converse holds too. *)
Theorem dirty_iff_ledger_modified (cur prev L : gmap string Z) :
  (Ledger.hasChanges (Ledger.reconcile cur prev L) = false →
   Ledger.newInvestmentRecord (Ledger.reconcile cur prev L) = L)
  ∧ (map_Forall (λ _ p, 0 ≤ p) prev →
     Ledger.newInvestmentRecord (Ledger.reconcile cur prev L) = L →
     Ledger.hasChanges (Ledger.reconcile cur prev L) = false).
Proof.
  split.
  - rewrite reconcile_flag. intros [Ht Hs]%orb_false_iff.
    rewrite existsb_false_all in Ht. rewrite existsb_false_all in Hs.
    assert (Hmid : ∀ k,
      Ledger.newInvestmentRecord
        (Ledger.process_changes cur prev (Ledger.State L false)) !! k
      = L !! k).
    { intros k. rewrite process_changes_lookup. simpl.
      destruct (cur !! k) as [c|] eqn:Hk; [|done].
      apply untouched_entry. apply (Ht (k, c)).
      by apply elem_of_map_to_list. }
    apply map_eq. intros k. rewrite reconcile_lookup.
    pose proof (Hmid k) as Hm. rewrite process_changes_lookup in Hm.
    simpl in Hm. rewrite Hm.
    destruct (L !! k) as [v|] eqn:HL; [|done].
    rewrite (Hs (k, v)); [done|].
    apply elem_of_map_to_list. by rewrite Hmid.
  - intros Hprev Hsame. rewrite reconcile_flag. apply orb_false_iff.
    assert (Hk : ∀ k, Ledger.newInvestmentRecord (Ledger.reconcile cur prev L) !! k
                      = L !! k) by (intros k; by rewrite Hsame).
    assert (Ht : ∀ k c, cur !! k = Some c →
      Ledger.touches (Js.or_zero (prev !! k)) (L !! k) c = false).
    { intros k c Hc.
      destruct (Ledger.touches _ _ _) eqn:Htouch; [|done].
      apply touched_entry in Htouch as (x & Hx & Hne & Hzero).
      specialize (Hk k). rewrite reconcile_lookup, Hc, Hx in Hk.
      destruct (Ledger.stale cur (k, x)) eqn:Hst; [|congruence].
      unfold Ledger.stale, Js.falsy_at in Hst. simpl in Hst. rewrite Hc in Hst.
      simpl in Hst. apply andb_true_iff in Hst as [Hc0%Z.eqb_eq _].
      destruct Hzero as [v Hv]; [done| |congruence].
      destruct (prev !! k) as [p|] eqn:Hp; simpl; [|lia].
      by apply (Hprev k p). }
    split; apply existsb_false_all.
    + intros [k c] Hin%elem_of_map_to_list. by apply Ht.
    + intros [k v] Hin%elem_of_map_to_list.
      rewrite process_changes_lookup in Hin. simpl in Hin.
      assert (Hv : L !! k = Some v).
      { destruct (cur !! k) as [c|] eqn:Hc; [|done].
        by rewrite (untouched_entry _ _ _ (Ht k c Hc)) in Hin. }
      specialize (Hk k). rewrite reconcile_lookup in Hk.
      destruct (cur !! k) as [c|] eqn:Hc.
      * rewrite (untouched_entry _ _ _ (Ht k c Hc)), Hv in Hk.
        by destruct (Ledger.stale cur (k, v)).
      * rewrite Hv in Hk. by destruct (Ledger.stale cur (k, v)).
Qed.

Lemma dirty_iff_ledger_modified_witness :
  Ledger.hasChanges
    (Ledger.reconcile {["Bow" := 1]} {["Bow" := 1]} {["Bow" := 3]}) = false.
Proof.
  apply (proj2 (dirty_iff_ledger_modified {["Bow" := 1]} {["Bow" := 1]}
                  {["Bow" := 3]})).
  - apply map_Forall_singleton. lia.
  - by vm_compute.
Defined.

(** X5: for a name that is not a property name of [Object.prototype], the
    reconciliation creates a ledger entry only when the item is in the
    current snapshot and its quantity grew, and the new value is the growth;
    every other such name of the outgoing ledger was already in the incoming
    one. *)
Theorem new_entry_only_by_growth (cur prev L : gmap string Z) (k : string) (v : Z) :
  Js.inherited k = false →
  Ledger.newInvestmentRecord (Ledger.reconcile cur prev L) !! k = Some v →
  L !! k = None →
  ∃ c, cur !! k = Some c ∧ Js.or_zero (prev !! k) < c
       ∧ v = c - Js.or_zero (prev !! k).
Proof.
  intros _. rewrite reconcile_lookup. intros Hout HL. rewrite HL in Hout.
  destruct (cur !! k) as [c|]; [|done]. exists c. split; [done|].
  unfold Ledger.entry_after in Hout. simpl in Hout.
  destruct (Z.ltb_spec 0 (c - Js.or_zero (prev !! k))).
  - split; [lia|]. case_match; [done|]. injection Hout as <-. lia.
  - destruct (Z.ltb_spec (c - Js.or_zero (prev !! k)) 0); [|done].
    destruct (Z.ltb_spec 0 (Z.min (Z.abs (c - Js.or_zero (prev !! k))) 0));
      [lia | done].
Qed.

Lemma new_entry_only_by_growth_witness :
  ∃ c, ({["Sword" := 2]} : gmap string Z) !! "Sword" = Some c
       ∧ Js.or_zero ((∅ : gmap string Z) !! "Sword") < c
       ∧ 2 = c - Js.or_zero ((∅ : gmap string Z) !! "Sword").
Proof.
  apply (new_entry_only_by_growth {["Sword" := 2]} ∅ ∅ "Sword" 2);
    by vm_compute.
Defined.

Lemma NoDup_fst_filter {A B} (P : A * B → Prop) `{∀ x, Decision (P x)}
    (l : list (A * B)) :
  NoDup l.*1 → NoDup (filter P l).*1.
Proof.
  induction l as [|x l IH]; [done|]. rewrite fmap_cons.
  intros [Hx Hl]%NoDup_cons. rewrite filter_cons.
  destruct (decide (P x)); [|by apply IH].
  rewrite fmap_cons. apply NoDup_cons. split; [|by apply IH].
  intros Hin. apply Hx. apply list_elem_of_fmap in Hin as (y & -> & Hy).
  apply list_elem_of_filter in Hy as [_ Hy].
  apply list_elem_of_fmap. by exists y.
Qed.

Lemma changes_elem (cur prev : gmap string Z) (name : string) (p c : Z) :
  (name, p, c) ∈ Ledger.changes cur prev ↔
  cur !! name = Some c ∧ prev !! name ≠ Some c
  ∧ p = Js.or_zero (prev !! name).
Proof.
  unfold Ledger.changes. rewrite list_elem_of_fmap. split.
  - intros ([k c'] & [= -> -> ->] & Hin).
    apply list_elem_of_filter in Hin as [Hd Hin%elem_of_map_to_list].
    unfold Ledger.differs in Hd. apply bool_decide_eq_true in Hd.
    simpl in *. rewrite Hin in Hd. done.
  - intros (Hc & Hp & ->). exists (name, c). split; [done|].
    apply list_elem_of_filter. split; [|by apply elem_of_map_to_list].
    unfold Ledger.differs. apply bool_decide_eq_true. simpl. by rewrite Hc.
Qed.

(** X6: the change set lists exactly the items of the current snapshot whose
    stored previous quantity is missing or different, each once.  For a name
    that is not a property name of [Object.prototype] the entry carries the
    previous quantity (0 when missing) and the current one; a missing
    previous quantity counts as different even from a current quantity 0. *)
Theorem change_set_members (cur prev : gmap string Z) :
  (∀ name, name ∈ (λ change, change.1.1) <$> Ledger.changes cur prev ↔
           ∃ c, cur !! name = Some c ∧ prev !! name ≠ Some c)
  ∧ (∀ name p c,
       Js.inherited name = false →
       (name, p, c) ∈ Ledger.changes cur prev ↔
       cur !! name = Some c ∧ prev !! name ≠ Some c
       ∧ p = Js.or_zero (prev !! name))
  ∧ NoDup ((λ change, change.1.1) <$> Ledger.changes cur prev).
Proof.
  split; [|split].
  - intros name. rewrite list_elem_of_fmap. split.
    + intros ([[n p] c] & -> & Hin). apply changes_elem in Hin.
      exists c. tauto.
    + intros (c & Hc & Hp).
      exists (name, Js.or_zero (prev !! name), c). split; [done|].
      by apply changes_elem.
  - intros name p c _. apply changes_elem.
  - unfold Ledger.changes. rewrite <- list_fmap_compose.
    apply (NoDup_fst_filter _ (map_to_list cur)), NoDup_fst_map_to_list.
Qed.

Lemma change_set_members_witness :
  ("Bow", 0, 0) ∈ Ledger.changes {["Bow" := 0]} ∅.
Proof.
  apply (proj1 (proj2 (change_set_members {["Bow" := 0]} ∅)) "Bow" 0 0);
    [reflexivity|].
  split; [reflexivity|]. split; [by rewrite lookup_empty | reflexivity].
Defined.

Example zero_to_zero_is_reported :
  Ledger.changes {["Bow" := 0]} ∅ = [("Bow", 0, 0)].
Proof. by vm_compute. Qed.

(** X7: buying and selling back.  When an item whose name is not a property
    name of [Object.prototype] goes from a non-zero quantity to a larger one
    and, at the next reconciliation, back to the first quantity, its ledger
    value is again what it was (0 for a missing entry), provided that value
    was not negative. *)
Theorem growth_then_return_restores_entry
    (A B L : gmap string Z) (k : string) (a b : Z) :
  Js.inherited k = false →
  A !! k = Some a →
  B !! k = Some b →
  a ≠ 0 →
  b ≠ 0 →
  a < b →
  0 ≤ Js.or_zero (L !! k) →
  Ledger.newInvestmentRecord
    (Ledger.reconcile A B
       (Ledger.newInvestmentRecord (Ledger.reconcile B A L))) !! k
  = Some (Js.or_zero (L !! k)).
Proof.
  intros _ HA HB Ha Hb Hab HL.
  rewrite reconcile_lookup, HA, HB. simpl.
  rewrite (grown_entry B A L k b) by (rewrite ?HA; done).
  rewrite HA. simpl.
  unfold Ledger.entry_after, Ledger.stale, Js.falsy_at. simpl. rewrite HA. simpl.
  destruct (Z.ltb_spec 0 (a - b)); [lia|].
  destruct (Z.ltb_spec (a - b) 0); [|lia].
  destruct (Z.ltb_spec 0
              (Z.min (Z.abs (a - b)) (Js.or_zero (L !! k) + (b - a)))); [|lia].
  destruct (Z.eqb_spec a 0); [done|]. simpl. f_equal. lia.
Qed.

Lemma growth_then_return_restores_entry_witness :
  Ledger.newInvestmentRecord
    (Ledger.reconcile {["Bow" := 2]} {["Bow" := 7]}
       (Ledger.newInvestmentRecord
          (Ledger.reconcile {["Bow" := 7]} {["Bow" := 2]} {["Bow" := 4]})))
    !! "Bow"
  = Some (Js.or_zero (({["Bow" := 4]} : gmap string Z) !! "Bow")).
Proof.
  apply (growth_then_return_restores_entry {["Bow" := 2]} {["Bow" := 7]}
           {["Bow" := 4]} "Bow" 2 7);
    [reflexivity | reflexivity | reflexivity | lia | lia | lia
    | by vm_compute].
Defined.

(** X8: the first run, with no stored snapshot and no stored ledger, on a
    current snapshot none of whose names is a property name of
    [Object.prototype]: the outgoing ledger is the current snapshot
    restricted to its strictly positive quantities, every item of the
    snapshot is in the change set, and [hasChanges] is set as soon as some
    quantity is positive. *)
Theorem first_run_ledger_is_snapshot (cur : gmap string Z) :
  (∀ k, is_Some (cur !! k) → Js.inherited k = false) →
  Ledger.newInvestmentRecord (Ledger.reconcile cur ∅ ∅)
  = filter (λ entry, 0 < entry.2) cur
  ∧ (∀ name c, cur !! name = Some c → (name, 0, c) ∈ Ledger.changes cur ∅)
  ∧ (Ledger.hasChanges (Ledger.reconcile cur ∅ ∅) = true ↔
     ∃ name c, cur !! name = Some c ∧ 0 < c).
Proof.
  intros _.
  assert (Hentry : ∀ c,
    Ledger.entry_after 0 None c = if 0 <? c then Some c else None).
  { intros c. unfold Ledger.entry_after. simpl. rewrite Z.sub_0_r.
    destruct (Z.ltb_spec 0 c); [by rewrite Z.add_0_l|].
    destruct (Z.ltb_spec c 0); [|done].
    by destruct (Z.ltb_spec 0 (Z.min (Z.abs c) 0)); [lia|]. }
  split; [|split].
  - apply map_eq. intros k. apply option_eq. intros v.
    rewrite map_lookup_filter_Some, reconcile_lookup, !lookup_empty. simpl.
    destruct (cur !! k) as [c|] eqn:Hc; [|by split; [|intros [? _]]].
    rewrite Hentry. unfold Ledger.stale, Js.falsy_at. simpl. rewrite Hc. simpl.
    destruct (Z.ltb_spec 0 c), (Z.eqb_spec c 0); simpl; try lia;
      (split; [intros ? | intros [? ?]]); simplify_eq/=;
      try done; try lia; by (split; [|lia]).
  - intros name c Hc. apply changes_elem.
    by rewrite lookup_empty.
  - rewrite reconcile_flag. split.
    + intros [Ht|Hs]%orb_true_iff.
      * apply existsb_exists in Ht as ([k c] & Hin & Ht).
        apply list_elem_of_In, elem_of_map_to_list in Hin.
        exists k, c. split; [done|]. revert Ht. rewrite !lookup_empty.
        unfold Ledger.touches. simpl. rewrite Z.sub_0_r.
        destruct (Z.ltb_spec 0 c); [done|].
        destruct (Z.ltb_spec c 0); [|done].
        by destruct (Z.ltb_spec 0 (Z.min (Z.abs c) 0)); [lia|].
      * apply existsb_exists in Hs as ([k v] & Hin & Hs).
        apply list_elem_of_In, elem_of_map_to_list in Hin.
        rewrite process_changes_lookup in Hin. simpl in Hin.
        rewrite !lookup_empty in Hin. simpl in Hin.
        destruct (cur !! k) as [c|] eqn:Hc; [|done].
        rewrite Hentry in Hin. exists k, c. split; [done|].
        by destruct (Z.ltb_spec 0 c).
    + intros (k & c & Hc & Hpos). apply orb_true_iff. left.
      apply (existsb_true_elem _ _ (k, c)); [by apply elem_of_map_to_list|].
      rewrite !lookup_empty. unfold Ledger.touches. simpl. rewrite Z.sub_0_r.
      by destruct (Z.ltb_spec 0 c); [|lia].
Qed.

Lemma first_run_ledger_is_snapshot_witness :
  Ledger.newInvestmentRecord (Ledger.reconcile {["Sword" := 2]} ∅ ∅)
  = filter (λ entry, 0 < entry.2) ({["Sword" := 2]} : gmap string Z).
Proof.
  apply (first_run_ledger_is_snapshot {["Sword" := 2]}).
  intros k [v Hv]. apply lookup_singleton_Some in Hv as [<- _]. reflexivity.
Defined.

(** * Further properties of the extraction *)

Section extraction_rules.

Import Extract.

Implicit Types (c : container) (m : gmap string Z) (k : string).

Lemma foldl_add_unit m (storage : list (option unit)) :
  foldl add_unit m storage = foldl add_item m (Flat.storage_items storage).
Proof.
  revert m. induction storage as [|u storage IH]; intros m; [done|].
  unfold Flat.storage_items. simpl. rewrite foldl_app, IH.
  by destruct u as [[[items|]]|].
Qed.

Lemma count_of_positive (s : slot) :
  (∀ n, Count s = Some n → 0 ≤ n) → 0 < count_of s.
Proof.
  unfold count_of, Js.or_one. intros H. destruct (Count s) as [n|]; [|lia].
  specialize (H n eq_refl). destruct (Z.eqb_spec n 0); lia.
Qed.

Lemma foldl_add_item_positive c m :
  Flat.counts_non_negative c →
  map_Forall (λ _ v, 0 < v) m →
  map_Forall (λ _ v, 0 < v) (foldl add_item m c).
Proof.
  revert m. induction c as [|item c IH]; intros m Hc Hm; [done|].
  simpl. apply IH.
  - intros s n Hin. apply Hc. by right.
  - destruct item as [s|]; simpl; [|done].
    destruct (Js.not (id s)); [done|].
    apply map_Forall_insert_2; [|done].
    assert (0 < count_of s).
    { apply count_of_positive. intros n. apply Hc. left. }
    destruct (m !! key_of s) as [v|] eqn:Hv; simpl; [|lia].
    specialize (Hm _ _ Hv). simpl in Hm. lia.
Qed.

Lemma sum_permutation (zs zs' : list Z) :
  zs ≡ₚ zs' → foldr Z.add 0 zs = foldr Z.add 0 zs'.
Proof.
  induction 1; simpl; lia.
Qed.

End extraction_rules.

(** X9: [processStorage] counts the slots of all units together: its result
    is that of [processContainer] on the slots of the units that have a
    [containsItems], taken one unit after the other. *)
Theorem processStorage_flattens_units (storage : list (option Extract.unit)) :
  Extract.processStorage storage
  = Extract.processContainer (Flat.storage_items storage).
Proof. apply foldl_add_unit. Qed.

(** X10: when no slot carries a negative [Count], every quantity recorded by
    [processContainer] and by [processStorage] is strictly positive, and so
    is every quantity of the merged snapshot: extraction never yields a
    quantity 0. *)
Theorem extraction_yields_positive_quantities :
  (∀ c, Flat.counts_non_negative c →
        map_Forall (λ _ v, 0 < v) (Extract.processContainer c))
  ∧ (∀ storage,
       Flat.counts_non_negative (Flat.storage_items storage) →
       map_Forall (λ _ v, 0 < v) (Extract.processStorage storage))
  ∧ (∀ ci ce storage,
       Flat.counts_non_negative ci →
       Flat.counts_non_negative ce →
       Flat.counts_non_negative (Flat.storage_items storage) →
       map_Forall (λ _ v, 0 < v)
         (Extract.currentInventory
            (Extract.InventoryData (Extract.processContainer ci)
               (Extract.processContainer ce)
               (Extract.processStorage storage)))).
Proof.
  assert (Hc : ∀ c, Flat.counts_non_negative c →
                    map_Forall (λ _ v, 0 < v) (Extract.processContainer c)).
  { intros c Hc. apply foldl_add_item_positive; [done|].
    apply map_Forall_empty. }
  assert (Hs : ∀ storage,
    Flat.counts_non_negative (Flat.storage_items storage) →
    map_Forall (λ _ v, 0 < v) (Extract.processStorage storage)).
  { intros storage H. unfold Extract.processStorage.
    rewrite foldl_add_unit. by apply Hc. }
  split; [done|]. split; [done|].
  intros ci ce storage Hi He Hst k v.
  unfold Extract.currentInventory. simpl.
  rewrite !spread_lookup, lookup_empty.
  destruct (Extract.processStorage storage !! k) as [x|] eqn:H1.
  { intros [= <-]. by apply (Hs storage Hst k x). }
  destruct (Extract.processContainer ce !! k) as [x|] eqn:H2.
  { intros [= <-]. by apply (Hc ce He k x). }
  destruct (Extract.processContainer ci !! k) as [x|] eqn:H3; [|done].
  intros [= <-]. by apply (Hc ci Hi k x).
Qed.

Lemma extraction_yields_positive_quantities_witness :
  map_Forall (λ _ v, 0 < v)
    (Extract.processContainer
       [Some (Extract.Slot (Some 261) (Some "Bow") (Some 0)); None;
        Some (Extract.Slot (Some 262) None None)]).
Proof.
  apply (proj1 extraction_yields_positive_quantities).
  intros s n Hin Hn.
  apply elem_of_cons in Hin as [Hin|Hin].
  { injection Hin as ->. simpl in Hn. injection Hn as <-. lia. }
  apply elem_of_cons in Hin as [Hin|Hin]; [discriminate|].
  apply elem_of_cons in Hin as [Hin|Hin].
  { injection Hin as ->. discriminate. }
  by apply elem_of_nil in Hin.
Defined.

(** X11: the result of [processContainer] does not depend on the order of
    the slots. *)
Theorem processContainer_order_irrelevant (c c' : Extract.container) :
  c ≡ₚ c' → Extract.processContainer c = Extract.processContainer c'.
Proof.
  intros Hp. apply map_eq. intros k.
  unfold Extract.processContainer. rewrite !foldl_add_item_lookup.
  assert (Hz : Extract.counts_for k c ≡ₚ Extract.counts_for k c').
  { unfold Extract.counts_for. by rewrite Hp. }
  pose proof (sum_permutation _ _ Hz) as Hsum.
  apply Permutation_length in Hz.
  destruct (Extract.counts_for k c) as [|z zs],
           (Extract.counts_for k c') as [|z' zs']; try done.
  by rewrite Hsum.
Qed.

Lemma processContainer_order_irrelevant_witness :
  Extract.processContainer
    [Some (Extract.Slot (Some 261) (Some "Bow") (Some 3));
     Some (Extract.Slot (Some 262) (Some "Arrow") None)]
  = Extract.processContainer
      [Some (Extract.Slot (Some 262) (Some "Arrow") None);
       Some (Extract.Slot (Some 261) (Some "Bow") (Some 3))].
Proof.
  apply processContainer_order_irrelevant. apply perm_swap.
Defined.

(** * Further properties of the run *)

Section retry_rules.

Import Run.

Implicit Types (E : env) (w : world) (req : request).

#[local] Arguments Text.of_string : simpl never.
#[local] Arguments Text.of_Z : simpl never.

(** One iteration of the loop that fails with [e] and is not the last. *)
Lemma retry_step_failed E req retries i left w e :
  Retry.failure (fetch E (fetches w)) = Some e →
  fetchWithRetry_from E req retries i (S left) w
  = if bool_decide (i = (retries - 1)%nat)
    then (Throw e, World (S (fetches w)) (log w ++ [Requested req]))
    else fetchWithRetry_from E req retries (S i) left
           (World (S (fetches w)) (log w ++ [Requested req])).
Proof.
  intros Hf. cbn [fetchWithRetry_from].
  unfold try_catch at 1. unfold bind at 1. unfold do_fetch at 1.
  unfold Retry.failure in Hf.
  destruct (fetch E (fetches w)) as [e'|r].
  - injection Hf as ->. by case_bool_decide.
  - destruct (ok r); [done|]. injection Hf as <-. unfold throw at 1.
    by case_bool_decide.
Qed.

Lemma retry_step_ok E req retries i left w r :
  fetch E (fetches w) = Responded r →
  ok r = true →
  fetchWithRetry_from E req retries i (S left) w
  = (Return (Some r), World (S (fetches w)) (log w ++ [Requested req])).
Proof.
  intros Hf Hok. cbn [fetchWithRetry_from].
  unfold try_catch at 1. unfold bind at 1. unfold do_fetch at 1.
  by rewrite Hf, Hok.
Qed.

Lemma retry_loop_outcome E req retries left :
  ∀ i w, (i + left = retries)%nat →
  (∀ j r,
     (j < left)%nat →
     (∀ n, (n < j)%nat → is_Some (Retry.failure (fetch E (fetches w + n)))) →
     fetch E (fetches w + j) = Responded r →
     ok r = true →
     fetchWithRetry_from E req retries i left w
     = (Return (Some r),
        World (fetches w + S j) (log w ++ replicate (S j) (Requested req))))
  ∧ (∀ e,
       (0 < left)%nat →
       (∀ n, (n < left)%nat →
             is_Some (Retry.failure (fetch E (fetches w + n)))) →
       Retry.failure (fetch E (fetches w + (left - 1))) = Some e →
       fetchWithRetry_from E req retries i left w
       = (Throw e,
          World (fetches w + left) (log w ++ replicate left (Requested req)))).
Proof.
  induction left as [|left IH]; intros i w Hi.
  { split; [intros j r Hj; lia | intros e Hl; lia]. }
  split.
  - intros [|j] r Hj Hfail Hf Hok.
    + rewrite Nat.add_0_r in Hf. rewrite (retry_step_ok _ _ _ _ _ _ r) by done.
      by rewrite Nat.add_1_r.
    + destruct (Hfail 0%nat) as [e0 He0]; [lia|].
      rewrite Nat.add_0_r in He0.
      rewrite (retry_step_failed _ _ _ _ _ _ e0) by done.
      rewrite bool_decide_eq_false_2 by lia.
      destruct (IH (S i) (World (S (fetches w)) (log w ++ [Requested req])))
        as [IHok _]; [lia|].
      rewrite (IHok j r); simpl.
      * f_equal. f_equal; [lia|]. by rewrite <- app_assoc.
      * lia.
      * intros n Hn. replace (S (fetches w + n)) with (fetches w + S n)%nat
          by lia. apply Hfail. lia.
      * by replace (S (fetches w + j)) with (fetches w + S j)%nat by lia.
      * done.
  - intros e _ Hfail He.
    destruct (Hfail 0%nat) as [e0 He0]; [lia|].
    rewrite Nat.add_0_r in He0.
    rewrite (retry_step_failed _ _ _ _ _ _ e0) by done.
    destruct left as [|left].
    + rewrite bool_decide_eq_true_2 by lia.
      simpl in He. rewrite Nat.add_0_r in He.
      rewrite He0 in He. injection He as ->.
      by rewrite Nat.add_1_r.
    + rewrite bool_decide_eq_false_2 by lia.
      destruct (IH (S i) (World (S (fetches w)) (log w ++ [Requested req])))
        as [_ IHfail]; [lia|].
      rewrite (IHfail e); simpl.
      * f_equal. f_equal; [lia|]. by rewrite <- app_assoc.
      * lia.
      * intros n Hn. replace (S (fetches w + n)) with (fetches w + S n)%nat
          by lia. apply Hfail. lia.
      * replace (S (fetches w + (left - 0))) with (fetches w + (S (S left) - 1))%nat
          by lia. done.
Qed.

End retry_rules.

(** X12: [fetchWithRetry] stops at the first attempt that answers with
    [response.ok] and returns that response, after as many [fetch] calls as
    attempts were needed; when all [MAX_RETRIES] attempts fail it throws the
    error of the last one.  Every attempt sends the same request. *)
Theorem fetchWithRetry_outcome (E : Run.env) (req : Run.request) (w : Run.world) :
  (∀ j r,
     (j < Run.MAX_RETRIES)%nat →
     (∀ n, (n < j)%nat →
           is_Some (Retry.failure (Run.fetch E (Run.fetches w + n)))) →
     Run.fetch E (Run.fetches w + j) = Run.Responded r →
     Run.ok r = true →
     Run.fetchWithRetry E req w
     = (Run.Return (Some r),
        Run.World (Run.fetches w + S j)
          (Run.log w ++ replicate (S j) (Run.Requested req))))
  ∧ (∀ e,
       (∀ n, (n < Run.MAX_RETRIES)%nat →
             is_Some (Retry.failure (Run.fetch E (Run.fetches w + n)))) →
       Retry.failure (Run.fetch E (Run.fetches w + 2)) = Some e →
       Run.fetchWithRetry E req w
       = (Run.Throw e,
          Run.World (Run.fetches w + Run.MAX_RETRIES)
            (Run.log w ++ replicate Run.MAX_RETRIES (Run.Requested req)))).
Proof.
  destruct (retry_loop_outcome E req Run.MAX_RETRIES Run.MAX_RETRIES 0%nat w)
    as [Hok Hfail]; [done|].
  split; [exact Hok|]. intros e Hall He. apply Hfail; [unfold Run.MAX_RETRIES; lia|done..].
Qed.

(** A retry budget of 0 makes no call and returns [undefined]. *)
Example fetchWithRetry_zero_budget (E : Run.env) (req : Run.request) (w : Run.world) :
  Run.fetchWithRetry_from E req 0 0 0 w = (Run.Return None, w).
Proof. done. Qed.

Lemma fetchWithRetry_outcome_witness :
  Run.fetchWithRetry Cases.flaky (Run.ProfileGet "Steve") Run.start
  = (Run.Return (Some (Run.Response true 200 (Some (Scenario.one_slot "Bow")))),
     Run.World (Run.fetches Run.start + 3)
       (Run.log Run.start ++ replicate 3 (Run.Requested (Run.ProfileGet "Steve")))).
Proof.
  apply (proj1 (fetchWithRetry_outcome Cases.flaky (Run.ProfileGet "Steve")
                  Run.start) 2%nat).
  - unfold Run.MAX_RETRIES. lia.
  - intros [|[|n]] Hn; [by eexists | by eexists | lia].
  - reflexivity.
  - reflexivity.
Defined.

Section inventory_rules.

Import Run.

Implicit Types (E : env) (w : world).

#[local] Arguments Text.of_string : simpl never.
#[local] Arguments Text.of_Z : simpl never.

Lemma find_current_first (pre post : list (option Api.profile))
    (p : Api.profile) w :
  Forall (λ q, ∃ q', q = Some q' ∧ Api.current q' = false) pre →
  Api.current p = true →
  find_current (pre ++ Some p :: post) w = (Return (Some p), w).
Proof.
  intros Hpre Hp. induction Hpre as [|q pre (q' & -> & Hq) _ IH]; simpl.
  - by rewrite Hp.
  - by rewrite Hq.
Qed.

(** After the fetch nothing of [getPlayerInventory] talks to the outside. *)
Lemma getPlayerInventory_world E w :
  (getPlayerInventory E w).2
  = (fetchWithRetry E (ProfileGet (PLAYER_NAME E)) w).2.
Proof.
  unfold getPlayerInventory, try_catch. unfold bind at 1.
  destruct (fetchWithRetry E _ w) as [[resp|e] w1]; [|done].
  unfold bind at 1. unfold response_json.
  destruct resp as [r|]; [destruct (json r) as [b|]|]; try done.
  unfold ret at 1. destruct (Api.profiles b) as [ps|]; [|done].
  unfold bind at 1.
  destruct (find_current_cases ps w1) as [[e ->]|[->|(p & _ & _ & ->)]];
    try done.
  destruct (items_of (Some p)) as [its|]; [|done].
  unfold values, bind.
  by destruct (Api.inventory its), (Api.enderchest its), (Api.storage its).
Qed.

Lemma inventory_effect E :
  ∃ w1 n, (1 ≤ n ≤ MAX_RETRIES)%nat
    ∧ getPlayerInventory E start = (Return (inventory_of E), w1)
    ∧ log w1 = replicate n (Requested (ProfileGet (PLAYER_NAME E))).
Proof.
  destruct (getPlayerInventory_inventory_of E) as [w1 Hw1].
  destruct (fetchWithRetry_log E (ProfileGet (PLAYER_NAME E)) start)
    as (n & Hn & Hlog).
  exists w1, n. split; [done|]. split; [done|].
  rewrite <- getPlayerInventory_world, Hw1 in Hlog. done.
Qed.

Lemma telegram_effect E msg w :
  ∃ w' n, (1 ≤ n ≤ MAX_RETRIES)%nat
    ∧ sendTelegramMessage E msg w = (Return (), w')
    ∧ log w' = log w ++ replicate n
                 (Requested (TelegramPost (TELEGRAM_CHAT_ID E) msg "Markdown")).
Proof.
  destruct (sendTelegramMessage_returns E msg w) as [w' Hw'].
  destruct (fetchWithRetry_log E
              (TelegramPost (TELEGRAM_CHAT_ID E) msg "Markdown") w)
    as (n & Hn & Hlog).
  exists w', n. split; [done|]. split; [done|].
  rewrite <- sendTelegramMessage_world, Hw' in Hlog. done.
Qed.

End inventory_rules.

(** X13: [getPlayerInventory] takes the first response that is [ok] among
    the attempts, and in it the first profile marked current.  With an items
    section it returns the three processed containers; when one of the three
    sections is missing it returns [null]. *)
Theorem getPlayerInventory_result (E : Run.env) (j : nat) (r : Run.response)
    (pre post : list (option Api.profile)) (p : Api.profile) (its : Api.items) :
  (j < Run.MAX_RETRIES)%nat →
  (∀ n, (n < j)%nat → is_Some (Retry.failure (Run.fetch E n))) →
  Run.fetch E j = Run.Responded r →
  Run.ok r = true →
  Run.json r = Some (Api.Body (Some (pre ++ Some p :: post))) →
  Forall (λ q, ∃ q', q = Some q' ∧ Api.current q' = false) pre →
  Api.current p = true →
  Run.items_of (Some p) = Some its →
  Run.inventory_of E
  = match Api.inventory its, Api.enderchest its, Api.storage its with
    | Some ci, Some ce, Some cs =>
        Some (Extract.InventoryData (Extract.processContainer ci)
                (Extract.processContainer ce) (Extract.processStorage cs))
    | _, _, _ => None
    end.
Proof.
  intros Hj Hfail Hf Hok Hjson Hpre Hp Hits.
  unfold Run.inventory_of, Run.getPlayerInventory.
  unfold Run.try_catch at 1. unfold Run.bind at 1. unfold Run.fetchWithRetry.
  destruct (retry_loop_outcome E (Run.ProfileGet (Run.PLAYER_NAME E))
              Run.MAX_RETRIES Run.MAX_RETRIES 0%nat Run.start) as [Hret _];
    [done|].
  rewrite (Hret j r) by done.
  unfold Run.bind at 1. unfold Run.response_json. rewrite Hjson.
  unfold Run.ret at 1. cbn [Api.profiles]. unfold Run.bind at 1.
  rewrite find_current_first by done. rewrite Hits.
  unfold Run.values, Run.bind.
  by destruct (Api.inventory its), (Api.enderchest its), (Api.storage its).
Qed.

Lemma getPlayerInventory_result_witness :
  Run.inventory_of Cases.no_storage = None.
Proof.
  assert (Hj : (0 < Run.MAX_RETRIES)%nat) by (unfold Run.MAX_RETRIES; lia).
  assert (Hfail : ∀ n, (n < 0)%nat →
            is_Some (Retry.failure (Run.fetch Cases.no_storage n)))
    by (intros n Hn; lia).
  exact (getPlayerInventory_result Cases.no_storage 0
           (Run.Response true 200 _) [] []
           (Api.Profile true _)
           (Api.Items
              (Some [Some (Extract.Slot (Some 261) (Some "Bow") (Some 1))])
              (Some []) None)
           Hj Hfail eq_refl eq_refl eq_refl (Forall_nil_2 _) eq_refl eq_refl).
Defined.

Section run_log.

Import Run.

Implicit Types (E : env) (w : world).

#[local] Arguments Text.of_string : simpl never.
#[local] Arguments Text.of_Z : simpl never.
#[local] Arguments Message.update : simpl never.
#[local] Arguments Message.critical : simpl never.
#[local] Arguments Ledger.reconcile : simpl never.
#[local] Arguments Extract.currentInventory : simpl never.

Lemma transmitted_app (l1 l2 : list event) :
  transmitted (l1 ++ l2) = transmitted l1 ++ transmitted l2.
Proof. apply omap_app. Qed.

Lemma stored_app (l1 l2 : list event) :
  Retry.stored (l1 ++ l2) = Retry.stored l1 ++ Retry.stored l2.
Proof. apply omap_app. Qed.

Lemma transmitted_profile_requests (n : nat) (player : string) :
  transmitted (replicate n (Requested (ProfileGet player))) = [].
Proof. induction n as [|n IH]; [done|]. exact IH. Qed.

Lemma transmitted_telegram_requests (n : nat) chat msg mode :
  transmitted (replicate n (Requested (TelegramPost chat msg mode)))
  = replicate n msg.
Proof. induction n as [|n IH]; [done|]. simpl. f_equal. exact IH. Qed.

Lemma stored_requests (n : nat) (r : request) :
  Retry.stored (replicate n (Requested r)) = [].
Proof. induction n as [|n IH]; [done|]. exact IH. Qed.

(** The log of a run in which [getPlayerInventory] returns [null]. *)
Lemma main_log_skipped E :
  inventory_of E = None →
  ∃ n, (1 ≤ n ≤ MAX_RETRIES)%nat
       ∧ log (main E start).2
         = replicate n (Requested (ProfileGet (PLAYER_NAME E))).
Proof.
  intros Hnone. unfold main, checkInventoryChanges.
  unfold try_catch at 1. unfold bind at 1. unfold try_catch at 1.
  unfold bind at 1.
  destruct (inventory_effect E) as (w1 & n & Hn & -> & Hlog).
  rewrite Hnone. exists n. by split.
Qed.

(** The log of a run in which a read of the store throws [e]. *)
Lemma main_log_unreadable E d e :
  inventory_of E = Some d →
  promise_all (getFirebaseData E "prev_inventory")
              (getFirebaseData E "investment_record")
  = (λ w, (Throw e, w)) →
  ∃ n1 n2, (1 ≤ n1 ≤ MAX_RETRIES)%nat ∧ (1 ≤ n2 ≤ MAX_RETRIES)%nat
    ∧ log (main E start).2
      = replicate n1 (Requested (ProfileGet (PLAYER_NAME E)))
        ++ replicate n2
             (Requested (TelegramPost (TELEGRAM_CHAT_ID E)
                           (Message.critical (message e)) "Markdown")).
Proof.
  intros Hd Hthrow. unfold main, checkInventoryChanges.
  unfold try_catch at 1. unfold bind at 1. unfold try_catch at 1.
  unfold bind at 1.
  destruct (inventory_effect E) as (w1 & n1 & Hn1 & -> & Hlog1).
  rewrite Hd. unfold bind at 1. rewrite Hthrow. unfold throw, bind.
  destruct (telegram_effect E (Message.critical (message e)) w1)
    as (w2 & n2 & Hn2 & -> & Hlog2).
  exists n1, n2. split; [done|]. split; [done|]. simpl.
  by rewrite Hlog2, Hlog1.
Qed.

(** The log of a run whose two reads succeed. *)
Lemma main_log_reconciled E d prev L :
  inventory_of E = Some d →
  read E "prev_inventory" = Some prev →
  read E "investment_record" = Some L →
  let cur := Extract.currentInventory d in
  let st := Ledger.reconcile cur prev L in
  let failed :=
    match setDoc E "prev_inventory" cur,
          setDoc E "investment_record" (Ledger.newInvestmentRecord st) with
    | Some e, _ => Some e
    | None, Some e => Some e
    | None, None => None
    end in
  ∃ n1 n2 n3,
    (1 ≤ n1 ≤ MAX_RETRIES)%nat
    ∧ (n2 ≤ MAX_RETRIES)%nat ∧ (n2 = 0%nat ↔ Ledger.hasChanges st = false)
    ∧ (n3 ≤ MAX_RETRIES)%nat ∧ (n3 = 0%nat ↔ failed = None)
    ∧ log (main E start).2
      = replicate n1 (Requested (ProfileGet (PLAYER_NAME E)))
        ++ replicate n2
             (Requested (TelegramPost (TELEGRAM_CHAT_ID E)
                (Message.update (PLAYER_NAME E) cur prev) "Markdown"))
        ++ match setDoc E "prev_inventory" cur with
           | None => [Stored "prev_inventory" cur]
           | Some _ => []
           end
        ++ match setDoc E "investment_record"
                   (Ledger.newInvestmentRecord st) with
           | None => [Stored "investment_record" (Ledger.newInvestmentRecord st)]
           | Some _ => []
           end
        ++ replicate n3
             (Requested (TelegramPost (TELEGRAM_CHAT_ID E)
                (Message.critical
                   (from_option message [] failed)) "Markdown")).
Proof.
  intros Hd Hprev HL cur st failed. unfold main, checkInventoryChanges.
  unfold try_catch at 1. unfold bind at 1. unfold try_catch at 1.
  unfold bind at 1.
  destruct (inventory_effect E) as (w1 & n1 & Hn1 & -> & Hlog1).
  rewrite Hd. unfold bind at 1.
  rewrite (proj1 (read_documents E w1) prev L) by done. simpl.
  unfold bind at 1. fold cur. fold st.
  assert (∃ w2 n2, (n2 ≤ MAX_RETRIES)%nat
            ∧ (n2 = 0%nat ↔ Ledger.hasChanges st = false)
            ∧ (if Ledger.hasChanges st
               then sendTelegramMessage E
                      (Message.update (PLAYER_NAME E) cur prev)
               else ret ()) w1 = (Return (), w2)
            ∧ log w2 = log w1 ++ replicate n2
                (Requested (TelegramPost (TELEGRAM_CHAT_ID E)
                   (Message.update (PLAYER_NAME E) cur prev) "Markdown")))
    as (w2 & n2 & Hn2 & Hzero & -> & Hlog2).
  { destruct (Ledger.hasChanges st).
    - destruct (telegram_effect E (Message.update (PLAYER_NAME E) cur prev) w1)
        as (w2 & n2 & Hn2 & Hw2 & Hlog2).
      exists w2, n2. split; [lia|]. split; [split; [lia|done]|]. done.
    - exists w1, 0%nat. split; [lia|]. split; [done|]. split; [done|].
      simpl. by rewrite app_nil_r. }
  exists n1, n2. unfold bind at 1, promise_all, updateFirebaseData.
  subst failed.
  destruct (setDoc E "prev_inventory" cur) as [e1|],
           (setDoc E "investment_record" (Ledger.newInvestmentRecord st))
             as [e2|]; simpl.
  - unfold bind.
    destruct (telegram_effect E (Message.critical (message e1)) w2)
      as (w3 & n3 & Hn3 & -> & Hlog3).
    exists n3. split; [done|]. split; [done|]. split; [done|].
    split; [lia|]. split; [split; [lia|done]|].
    simpl. by rewrite Hlog3, Hlog2, Hlog1, <- !app_assoc.
  - unfold bind.
    match goal with |- context [sendTelegramMessage E ?m ?w] =>
      destruct (telegram_effect E m w) as (w3 & n3 & Hn3 & -> & Hlog3) end.
    exists n3. split; [done|]. split; [done|]. split; [done|].
    split; [lia|]. split; [split; [lia|done]|].
    simpl. rewrite Hlog3. simpl. by rewrite Hlog2, Hlog1, <- !app_assoc.
  - unfold bind.
    match goal with |- context [sendTelegramMessage E ?m ?w] =>
      destruct (telegram_effect E m w) as (w3 & n3 & Hn3 & -> & Hlog3) end.
    exists n3. split; [done|]. split; [done|]. split; [done|].
    split; [lia|]. split; [split; [lia|done]|].
    simpl. rewrite Hlog3. simpl. by rewrite Hlog2, Hlog1, <- !app_assoc.
  - exists 0%nat. split; [done|]. split; [done|]. split; [done|].
    split; [lia|]. split; [done|].
    simpl. by rewrite Hlog2, Hlog1, <- !app_assoc.
Qed.

End run_log.

(** X14: when [getPlayerInventory] returns [null] the run is silent: it
    makes one to three requests to the profile API and nothing else; no text
    goes to the notification sink and no document is written. *)
Theorem skipped_run_is_silent (E : Run.env) :
  Run.inventory_of E = None →
  Run.transmitted (Run.log (Run.main E Run.start).2) = []
  ∧ Retry.stored (Run.log (Run.main E Run.start).2) = []
  ∧ ∃ n, (1 ≤ n ≤ Run.MAX_RETRIES)%nat
         ∧ Run.log (Run.main E Run.start).2
           = replicate n (Run.Requested (Run.ProfileGet (Run.PLAYER_NAME E))).
Proof.
  intros Hnone. destruct (main_log_skipped E Hnone) as (n & Hn & Hlog).
  rewrite Hlog. split; [apply transmitted_profile_requests|].
  split; [apply stored_requests|]. by exists n.
Qed.

Lemma skipped_run_is_silent_witness :
  Run.transmitted (Run.log (Run.main Scenario.unreachable Run.start).2) = [].
Proof.
  assert (H : Run.inventory_of Scenario.unreachable = None) by (by vm_compute).
  exact (proj1 (skipped_run_is_silent Scenario.unreachable H)).
Defined.



(** X16: in such a run, when no name of the current snapshot is a property
    name of [Object.prototype], a text goes to the notification sink exactly
    when [hasChanges] is set: the same text on one to three attempts,
    beginning with the header line, and nothing else is transmitted. *)
Theorem update_sent_iff_dirty (E : Run.env)
    (d : Extract.inventoryData) (prev L : gmap string Z) :
  (∀ k, is_Some (Extract.currentInventory d !! k) → Js.inherited k = false) →
  Run.inventory_of E = Some d →
  Run.read E "prev_inventory" = Some prev →
  Run.read E "investment_record" = Some L →
  Run.setDoc E "prev_inventory" (Extract.currentInventory d) = None →
  Run.setDoc E "investment_record"
    (Ledger.newInvestmentRecord
       (Ledger.reconcile (Extract.currentInventory d) prev L)) = None →
  ∃ n text,
    (n ≤ Run.MAX_RETRIES)%nat
    ∧ (n = 0%nat ↔
       Ledger.hasChanges
         (Ledger.reconcile (Extract.currentInventory d) prev L) = false)
    ∧ Run.transmitted (Run.log (Run.main E Run.start).2) = replicate n text
    ∧ Message.header (Run.PLAYER_NAME E) `prefix_of` text.
Proof.
  intros _ Hd Hprev HL H1 H2.
  destruct (main_log_reconciled E d prev L Hd Hprev HL)
    as (n1 & n2 & n3 & _ & Hn2 & Hzero & _ & Hn3 & Hlog).
  rewrite H1, H2 in Hn3. rewrite H1, H2 in Hlog.
  assert (n3 = 0%nat) as -> by (by apply Hn3).
  exists n2,
    (Message.update (Run.PLAYER_NAME E) (Extract.currentInventory d) prev).
  split; [done|]. split; [done|]. split.
  - rewrite Hlog, !transmitted_app, transmitted_profile_requests,
      transmitted_telegram_requests. simpl. by rewrite app_nil_r.
  - unfold Message.update. case_bool_decide.
    + by eexists.
    + exists []. by rewrite app_nil_r.
Qed.

Lemma update_sent_iff_dirty_witness :
  ∃ n text,
    (n ≤ Run.MAX_RETRIES)%nat
    ∧ (n = 0%nat ↔
       Ledger.hasChanges
         (Ledger.reconcile
            (Extract.currentInventory
               (Extract.InventoryData {["Arrow" := 1]} ∅ ∅))
            {["Arrow" := 1; "Bow" := 1]} {["Bow" := 3]}) = false)
    ∧ Run.transmitted (Run.log (Run.main Cases.bow_sold Run.start).2)
      = replicate n text
    ∧ Message.header (Run.PLAYER_NAME Cases.bow_sold) `prefix_of` text.
Proof.
  assert (Hnames : ∀ k,
    is_Some (Extract.currentInventory
               (Extract.InventoryData {["Arrow" := 1]} ∅ ∅) !! k) →
    Js.inherited k = false).
  { intros k [v Hv].
    change (Extract.currentInventory
              (Extract.InventoryData {["Arrow" := 1]} ∅ ∅))
      with ({["Arrow" := 1]} : gmap string Z) in Hv.
    apply lookup_singleton_Some in Hv as [<- _]. reflexivity. }
  assert (Hd : Run.inventory_of Cases.bow_sold
               = Some (Extract.InventoryData {["Arrow" := 1]} ∅ ∅))
    by (by vm_compute).
  assert (Hprev : Run.read Cases.bow_sold "prev_inventory"
                  = Some {["Arrow" := 1; "Bow" := 1]}) by reflexivity.
  assert (HL : Run.read Cases.bow_sold "investment_record"
               = Some {["Bow" := 3]}) by reflexivity.
  exact (update_sent_iff_dirty Cases.bow_sold _ _ _ Hnames Hd Hprev HL
           eq_refl eq_refl).
Defined.

(** X17: with an empty change set the update message is the header line
    alone; this is what is sent when the only work of the reconciliation is
    the removal of the entry of an item that is in neither snapshot and whose
    name is not a property name of [Object.prototype]. *)
Theorem pruning_only_sends_header (label : string)
    (cur L : gmap string Z) (k : string) (v : Z) :
  Js.inherited k = false →
  cur !! k = None →
  L !! k = Some v →
  0 < v →
  Ledger.hasChanges (Ledger.reconcile cur cur L) = true
  ∧ Message.update label cur cur = Message.header label.
Proof.
  intros Hk Hcur HL Hv. split.
  - rewrite reconcile_same_snapshot_flag.
    apply (existsb_true_elem _ _ (k, v)); [by apply elem_of_map_to_list|].
    rewrite stale_missing, Hk by done. simpl.
    by destruct (Z.ltb_spec 0 v); [|lia].
  - unfold Message.update. by rewrite changes_same_snapshot.
Qed.

Lemma pruning_only_sends_header_witness :
  Ledger.hasChanges
    (Ledger.reconcile {["Arrow" := 1]} {["Arrow" := 1]} {["Bow" := 3]}) = true
  ∧ Message.update "Steve" {["Arrow" := 1]} {["Arrow" := 1]}
    = Message.header "Steve".
Proof.
  apply (pruning_only_sends_header "Steve" {["Arrow" := 1]} {["Bow" := 3]}
           "Bow" 3); [reflexivity | reflexivity | reflexivity | lia].
Defined.

(** X18: when the read of one of the two documents throws (the other one
    not), nothing is reconciled or written; the critical-error text built
    from that error's message is the only text transmitted, on one to three
    attempts. *)
Theorem failed_read_stores_nothing (E : Run.env)
    (d : Extract.inventoryData) (e : Run.error) :
  Run.inventory_of E = Some d →
  (Run.getDoc E "prev_inventory" = inl e
   ∧ is_Some (Run.read E "investment_record"))
  ∨ (is_Some (Run.read E "prev_inventory")
     ∧ Run.getDoc E "investment_record" = inl e) →
  Retry.stored (Run.log (Run.main E Run.start).2) = []
  ∧ ∃ n, (1 ≤ n ≤ Run.MAX_RETRIES)%nat
         ∧ Run.transmitted (Run.log (Run.main E Run.start).2)
           = replicate n (Message.critical (Run.message e)).
Proof.
  intros Hd Hread.
  assert (Hthrow :
    Run.promise_all (Run.getFirebaseData E "prev_inventory")
                    (Run.getFirebaseData E "investment_record")
    = (λ w, (Run.Throw e, w))).
  { unfold Run.promise_all, Run.getFirebaseData, Run.read in *.
    destruct Hread as [[H1 [x H2]]|[[x H1] H2]].
    - rewrite H1. by destruct (Run.getDoc E "investment_record") as [?|[?|]].
    - rewrite H2. by destruct (Run.getDoc E "prev_inventory") as [?|[?|]]. }
  destruct (main_log_unreadable E d e Hd Hthrow) as (n1 & n2 & _ & Hn2 & Hlog).
  rewrite Hlog. split.
  - by rewrite stored_app, !stored_requests.
  - exists n2. split; [done|].
    by rewrite transmitted_app, transmitted_profile_requests,
      transmitted_telegram_requests.
Qed.

Lemma failed_read_stores_nothing_witness :
  Retry.stored (Run.log (Run.main Cases.ledger_unreadable Run.start).2) = [].
Proof.
  assert (Hd : Run.inventory_of Cases.ledger_unreadable
               = Some (Extract.InventoryData {["Bow" := 1]} ∅ ∅))
    by (by vm_compute).
  assert (Hread :
    (Run.getDoc Cases.ledger_unreadable "prev_inventory"
     = inl (Run.Error (Text.of_string "permission-denied"))
     ∧ is_Some (Run.read Cases.ledger_unreadable "investment_record"))
    ∨ (is_Some (Run.read Cases.ledger_unreadable "prev_inventory")
       ∧ Run.getDoc Cases.ledger_unreadable "investment_record"
         = inl (Run.Error (Text.of_string "permission-denied")))).
  { right. split; [by eexists | reflexivity]. }
  exact (proj1 (failed_read_stores_nothing Cases.ledger_unreadable _ _ Hd Hread)).
Defined.



(** * The alternative script *)

Section membership_rules.

Implicit Types (cur prev L : gmap string Z) (st : Ledger.state).

#[local] Arguments Ledger.removed_step : simpl never.
#[local] Arguments Membership.removed_step : simpl never.

Lemma truthy_is_member cur k :
  (∀ k, cur !! k ≠ Some 0) →
  Js.falsy_at cur k = negb (Js.has cur k).
Proof.
  intros Hnz. specialize (Hnz k). unfold Js.falsy_at, Js.has.
  destruct (cur !! k) as [c|].
  - rewrite bool_decide_eq_true_2 by eauto. simpl.
    destruct (Z.eqb_spec c 0); [congruence|done].
  - rewrite bool_decide_eq_false_2; [done|]. by intros [? ?].
Qed.

Lemma removed_loops_agree cur (l : list (string * Z)) st :
  (∀ k, cur !! k ≠ Some 0) →
  NoDup l.*1 →
  (∀ k v, (k, v) ∈ l → Ledger.newInvestmentRecord st !! k = Some v) →
  foldl (Membership.removed_step cur) st l.*1
  = foldl (Ledger.removed_step cur) st l.
Proof.
  intros Hnz. revert st. induction l as [|[k v] l IH]; intros st Hnd Hl; [done|].
  rewrite fmap_cons in Hnd. apply NoDup_cons in Hnd as [Hk Hnd].
  rewrite fmap_cons. simpl.
  assert (Hstep : Membership.removed_step cur st k
                  = Ledger.removed_step cur st (k, v)).
  { unfold Membership.removed_step, Ledger.removed_step.
    rewrite (Hl k v) by left. by rewrite truthy_is_member. }
  rewrite Hstep. apply IH; [done|].
  intros k' v' Hin. rewrite removed_step_other.
  - apply Hl. by right.
  - intros ->. apply Hk. apply list_elem_of_fmap. by exists (k', v').
Qed.

End membership_rules.

Lemma filter_agree {A} (P1 P2 : A → Prop)
    `{∀ x, Decision (P1 x)} `{∀ x, Decision (P2 x)} (l : list A) :
  (∀ x, x ∈ l → P1 x ↔ P2 x) → filter P1 l = filter P2 l.
Proof.
  induction l as [|x l IH]; intros Hl; [done|].
  rewrite !filter_cons.
  assert (Hx : P1 x ↔ P2 x) by (apply Hl; left).
  rewrite IH by (intros y Hy; apply Hl; by right).
  destruct (decide (P1 x)), (decide (P2 x)); tauto || done.
Qed.

(** X21: on a current snapshot without quantity 0 -- which is what the
    extraction yields -- the reconciliation of the alternative script, with
    its membership test, gives the same ledger, the same [hasChanges] and the
    same change set as [index.js]. *)
Theorem scripts_agree_without_zero_quantity (cur prev L : gmap string Z) :
  (∀ k, cur !! k ≠ Some 0) →
  Membership.reconcile cur prev L = Ledger.reconcile cur prev L
  ∧ Membership.changes cur prev = Ledger.changes cur prev.
Proof.
  intros Hnz. split.
  - unfold Membership.reconcile, Ledger.reconcile,
      Membership.process_removed, Ledger.process_removed.
    apply removed_loops_agree; [done|apply NoDup_fst_map_to_list|].
    intros k v. apply elem_of_map_to_list.
  - unfold Membership.changes, Ledger.changes. f_equal.
    apply filter_agree. intros [k c] Hin%elem_of_map_to_list.
    unfold Membership.differs, Ledger.differs.
    rewrite !bool_decide_eq_true. simpl. rewrite Hin.
    destruct (prev !! k) as [p|]; simpl.
    + split; intros Hd; congruence.
    + split; [done|]. intros _ <-. by apply (Hnz k).
Qed.

Lemma scripts_agree_without_zero_quantity_witness :
  Membership.reconcile {["Arrow" := 1]} {["Arrow" := 4; "Bow" := 1]}
                       {["Arrow" := 2; "Bow" := 3]}
  = Ledger.reconcile {["Arrow" := 1]} {["Arrow" := 4; "Bow" := 1]}
                     {["Arrow" := 2; "Bow" := 3]}.
Proof.
  assert (Hnz : ∀ k, ({["Arrow" := 1]} : gmap string Z) !! k ≠ Some 0).
  { intros k. destruct (decide (k = "Arrow")) as [->|Hne].
    - rewrite lookup_singleton_eq. discriminate.
    - rewrite lookup_singleton_ne by done. discriminate. }
  exact (proj1 (scripts_agree_without_zero_quantity {["Arrow" := 1]}
                  {["Arrow" := 4; "Bow" := 1]} {["Arrow" := 2; "Bow" := 3]}
                  Hnz)).
Defined.

(** With a quantity 0 in the current snapshot the two scripts differ. *)
Example scripts_differ_on_zero_quantity :
  Ledger.newInvestmentRecord
    (Membership.reconcile {["Bow" := 0]} {["Bow" := 1]} {["Bow" := 3]})
  = {["Bow" := 2]}
  ∧ Ledger.newInvestmentRecord
      (Ledger.reconcile {["Bow" := 0]} {["Bow" := 1]} {["Bow" := 3]})
    = ∅.
Proof. by vm_compute. Qed.

(** * Notification and ledger postconditions *)

(** X22: [sendTelegramMessage] never throws, whatever the network answers and
    even when the body of the answer cannot be parsed.  It posts the same
    request once per attempt: up to and including the first attempt that is
    [ok], or [MAX_RETRIES] times when none is. *)
Theorem sendTelegramMessage_swallows_failures
    (E : Run.env) (msg : Text.t) (w : Run.world) :
  (∃ w', Run.sendTelegramMessage E msg w = (Run.Return (), w'))
  ∧ (∀ j r,
       (j < Run.MAX_RETRIES)%nat →
       (∀ n, (n < j)%nat →
             is_Some (Retry.failure (Run.fetch E (Run.fetches w + n)))) →
       Run.fetch E (Run.fetches w + j) = Run.Responded r →
       Run.ok r = true →
       (Run.sendTelegramMessage E msg w).2
       = Run.World (Run.fetches w + S j)
           (Run.log w ++ replicate (S j)
              (Run.Requested
                 (Run.TelegramPost (Run.TELEGRAM_CHAT_ID E) msg "Markdown"))))
  ∧ ((∀ n, (n < Run.MAX_RETRIES)%nat →
           is_Some (Retry.failure (Run.fetch E (Run.fetches w + n)))) →
     (Run.sendTelegramMessage E msg w).2
     = Run.World (Run.fetches w + Run.MAX_RETRIES)
         (Run.log w ++ replicate Run.MAX_RETRIES
            (Run.Requested
               (Run.TelegramPost (Run.TELEGRAM_CHAT_ID E) msg "Markdown")))).
Proof.
  destruct (retry_loop_outcome E
              (Run.TelegramPost (Run.TELEGRAM_CHAT_ID E) msg "Markdown")
              Run.MAX_RETRIES Run.MAX_RETRIES 0%nat w) as [Hok Hfail]; [done|].
  split; [apply sendTelegramMessage_returns|]. split.
  - intros j r Hj Hbefore Hf Hr. rewrite sendTelegramMessage_world.
    unfold Run.fetchWithRetry. by rewrite (Hok j r).
  - intros Hall. rewrite sendTelegramMessage_world. unfold Run.fetchWithRetry.
    destruct (Hall 2%nat) as [e He]; [unfold Run.MAX_RETRIES; lia|].
    rewrite (Hfail e); [done|unfold Run.MAX_RETRIES; lia|done|done].
Qed.

Lemma sendTelegramMessage_swallows_failures_witness :
  (Run.sendTelegramMessage Scenario.unreachable (Text.of_string "hi")
     Run.start).2
  = Run.World (Run.fetches Run.start + Run.MAX_RETRIES)
      (Run.log Run.start ++ replicate Run.MAX_RETRIES
         (Run.Requested
            (Run.TelegramPost (Run.TELEGRAM_CHAT_ID Scenario.unreachable)
               (Text.of_string "hi") "Markdown"))).
Proof.
  apply (proj2 (proj2 (sendTelegramMessage_swallows_failures
                         Scenario.unreachable (Text.of_string "hi") Run.start))).
  intros n _. by eexists.
Defined.

(** X23: after a reconciliation every ledger entry of strictly positive
    value whose name is not a property name of [Object.prototype] belongs to
    an item that the current snapshot holds in a non-zero quantity. *)
Theorem positive_entries_are_held (cur prev L : gmap string Z) (k : string) (v : Z) :
  Js.inherited k = false →
  Ledger.newInvestmentRecord (Ledger.reconcile cur prev L) !! k = Some v →
  0 < v →
  ∃ c, cur !! k = Some c ∧ c ≠ 0.
Proof.
  intros Hk Hout Hv. apply reconcile_no_stale in Hout.
  destruct (cur !! k) as [c|] eqn:Hc.
  - rewrite (stale_own cur k c v Hc) in Hout.
    exists c. split; [done|]. intros ->. simpl in Hout.
    destruct (Z.ltb_spec 0 v); [done|lia].
  - rewrite (stale_missing cur k v Hc), Hk in Hout. simpl in Hout.
    destruct (Z.ltb_spec 0 v); [done|lia].
Qed.

Lemma positive_entries_are_held_witness :
  ∃ c, ({["Diamond" := 15]} : gmap string Z) !! "Diamond" = Some c ∧ c ≠ 0.
Proof.
  apply (positive_entries_are_held {["Diamond" := 15]} {["Diamond" := 20]}
           {["Diamond" := 10]} "Diamond" 5);
    [reflexivity | by vm_compute | lia].
Defined.
